(** * Watermelon ripeness tester: the detection and scoring core of
    [src/pages/index.vue]

    The page listens to the microphone, watches the 100-300 Hz band of each
    frequency-domain frame for a thump, and turns the frequency of the
    loudest bin together with the melon's mass into a ripeness index, a
    verdict, a sweetness estimate and a 0-100 score.

    Conventions of the embedding.
    - A JavaScript [number] is modelled without rounding.  In the detector
      every quantity is obtained from bytes, integers and the sample rate by
      field operations, so it is an exact rational ([Q]) extended with the
      special values the code can meet ([NaN] from reading past the end of
      the typed array or from [0 / 0], and the infinities that make division
      total).  The scoring model raises the mass to the power [2/3], so it is
      stated over the reals ([R]).
    - Reactive refs and module-level variables are fields of one [State]
      record which every function of the page takes and returns.
    - The browser (media devices, permission prompt, sample rate) is an
      explicit [Browser] argument. *)

From Stdlib Require Import ZArith QArith Qround Reals Qreals Lra Lia Psatz.
From Stdlib Require Import List String Bool.
Import ListNotations.

Local Open Scope Z_scope.

(** ** JavaScript numbers met by the detector *)

Inductive number : Type :=
| NaN
| NegInf
| Fin (q : Q)
| PosInf.

Definition ofZ (z : Z) : number := Fin (inject_Z z).

(** [ToNumber] of an element read from a typed array: an index outside the
    array reads [undefined], which is [NaN] in arithmetic. *)
Definition toNumber (o : option Z) : number :=
  match o with
  | Some v => ofZ v
  | None => NaN
  end.

(** [x + y] *)
Definition numAdd (x y : number) : number :=
  match x, y with
  | NaN, _ | _, NaN => NaN
  | PosInf, NegInf | NegInf, PosInf => NaN
  | PosInf, _ | _, PosInf => PosInf
  | NegInf, _ | _, NegInf => NegInf
  | Fin a, Fin b => Fin (a + b)
  end.

Definition Qpositive (a : Q) : bool := (0 <? Qnum a)%Z.
Definition Qzero (a : Q) : bool := (Qnum a =? 0)%Z.

(** [x / y].  The only zero divisor the page can produce is the integer
    difference [maxIndex - minIndex], which is [+0]. *)
Definition numDiv (x y : number) : number :=
  match x, y with
  | NaN, _ | _, NaN => NaN
  | Fin a, Fin b =>
      if Qzero b then
        if Qzero a then NaN else if Qpositive a then PosInf else NegInf
      else Fin (a / b)
  | Fin _, _ => Fin 0
  | _, Fin b =>
      let flip := negb (Qzero b || Qpositive b) in
      match x with
      | PosInf => if flip then NegInf else PosInf
      | _ => if flip then PosInf else NegInf
      end
  | _, _ => NaN
  end.

(** [x > y]: false as soon as one side is [NaN]. *)
Definition numGt (x y : number) : bool :=
  match x, y with
  | NaN, _ | _, NaN => false
  | PosInf, PosInf => false
  | PosInf, _ => true
  | _, PosInf => false
  | NegInf, _ => false
  | _, NegInf => true
  | Fin a, Fin b => negb (Qle_bool a b)
  end.

(** [Math.round] on a finite number: the nearest integer, ties towards
    positive infinity. *)
Definition mathRound (x : Q) : Z := Qfloor (x + (1 # 2)).

(** ** SensitivityMapper: the two computed thresholds (lines 33-34) *)

Definition absoluteThreshold (sensitivity : Q) : Q := 160 - sensitivity * 10.
Definition relativeThreshold (sensitivity : Q) : Q := 45 - sensitivity * 3.

(** ** ThumpDetector: the body of [processAudio] (lines 79-104) *)

(** A frame is the [Uint8Array] filled by [getByteFrequencyData]. *)
Definition Frame : Type := list Z.

Definition isUint8Array (dataArray : Frame) : bool :=
  forallb (fun v => (0 <=? v) && (v <? 256)) dataArray.

(** [dataArray[i]] *)
Definition readBin (dataArray : Frame) (i : Z) : option Z :=
  if i <? 0 then None else nth_error dataArray (Z.to_nat i).

Definition relevantFreqMin : Q := 100.
Definition relevantFreqMax : Q := 300.

(** [sampleRate / analyser.fftSize], the width of one bin in Hz.  The sample
    rate of an audio context is a positive number; the properties below are
    stated for positive rates, where no division by zero occurs. *)
Definition binWidth (sampleRate : Q) (fftSize : positive) : Q :=
  sampleRate / inject_Z (Zpos fftSize).

Definition minIndex (sampleRate : Q) (fftSize : positive) : Z :=
  mathRound (relevantFreqMin / binWidth sampleRate fftSize).

Definition maxIndex (sampleRate : Q) (fftSize : positive) : Z :=
  mathRound (relevantFreqMax / binWidth sampleRate fftSize).

(** The three variables of the scan loop. *)
Record Scan : Type := mkScan {
  peakAmplitude : Z;
  peakIndex : Z;
  totalAmplitude : number
}.

Definition scanInit : Scan :=
  {| peakAmplitude := 0; peakIndex := 0; totalAmplitude := ofZ 0 |}.

(** One iteration of the [for] loop at index [i]. *)
Definition scanStep (dataArray : Frame) (i : Z) (s : Scan) : Scan :=
  let total := numAdd (totalAmplitude s) (toNumber (readBin dataArray i)) in
  if numGt (toNumber (readBin dataArray i)) (ofZ (peakAmplitude s)) then
    {| peakAmplitude := match readBin dataArray i with
                        | Some v => v
                        | None => peakAmplitude s
                        end;
       peakIndex := i;
       totalAmplitude := total |}
  else
    {| peakAmplitude := peakAmplitude s;
       peakIndex := peakIndex s;
       totalAmplitude := total |}.

(** [n] iterations starting at index [i]. *)
Fixpoint scanLoop (dataArray : Frame) (n : nat) (i : Z) (s : Scan) : Scan :=
  match n with
  | O => s
  | S n' => scanLoop dataArray n' (i + 1) (scanStep dataArray i s)
  end.

(** [for (let i = lo; i < hi; i++)] from the initial variables. *)
Definition scanBand (dataArray : Frame) (lo hi : Z) : Scan :=
  scanLoop dataArray (Z.to_nat (hi - lo)) lo scanInit.

Definition averageAmplitude (s : Scan) (lo hi : Z) : number :=
  numDiv (totalAmplitude s) (ofZ (hi - lo)).

(** The condition of the [if] on line 100. *)
Definition thumpCondition (s : Scan) (lo hi : Z) (absT relT : Q) : bool :=
  numGt (ofZ (peakAmplitude s)) (Fin absT)
  && numGt (ofZ (peakAmplitude s)) (numAdd (averageAmplitude s lo hi) (Fin relT)).

(** The decision taken on a frame for a band [lo, hi): the base frequency
    handed to [calculateRipeness] when a thump is declared. *)
Definition evaluateBand (dataArray : Frame) (lo hi : Z) (width absT relT : Q)
  : option Q :=
  let s := scanBand dataArray lo hi in
  if thumpCondition s lo hi absT relT
  then Some (inject_Z (peakIndex s) * width)%Q
  else None.

(** The decision of [processAudio] on one frame, with the band computed from
    the sample rate and the FFT size as on lines 82-83. *)
Definition evaluate (dataArray : Frame) (sampleRate : Q) (fftSize : positive)
    (absT relT : Q) : option Q :=
  evaluateBand dataArray (minIndex sampleRate fftSize)
    (maxIndex sampleRate fftSize) (binWidth sampleRate fftSize) absT relT.

(** ** RipenessModel: [calculateRipeness] (lines 116-154) *)

Local Open Scope R_scope.

(** The reactive [result] object; [None] is JavaScript's [null]. *)
Record Result : Type := mkResult {
  baseFrequency : option R;
  ripenessIndex : option R;
  ripenessScore : option R;
  sweetnessBrix : option R;
  verdict : string;
  ripenessClass : string
}.

(** The object assigned to [result] when a session starts (line 44). *)
Definition emptyResult : Result :=
  {| baseFrequency := None; ripenessIndex := None; ripenessScore := None;
     sweetnessBrix := None; verdict := ""; ripenessClass := "" |}.

(** [f ** 2 * m ** (2 / 3)] *)
Definition ripenessIndexOf (f m : R) : R := f ^ 2 * Rpower m (2 / 3).

(** The [if / else if / else] of lines 128-139: the verdict text and the
    ripeness class. *)
Definition verdictOf (ri : R) : string * string :=
  if Rlt_dec ri 74000 then ("✅ 恰到好处", "ripe")%string
  else if Rlt_dec ri 85000 then ("🤔 听起来不太妙", "borderline")%string
  else ("❌ 生瓜蛋子", "unripe")%string.

(** Lines 142-143. *)
Definition sweetnessOf (ri : R) : R :=
  let sweetness := 12 - 4 * ((ri - 60000) / 30000) in
  Rmax 5 (Rmin 13 sweetness).

(** Lines 148-153. *)
Definition scoreOf (ri : R) : R :=
  let ripeThreshold := 60000 in
  let unripeThreshold := 95000 in
  let score := 100 * (unripeThreshold - ri) / (unripeThreshold - ripeThreshold) in
  Rmax 0 (Rmin 100 score).

(** ** The page state *)

(** The audio graph built by [startDetection]: [audioContext.sampleRate] and
    [analyser.fftSize]. *)
Record Audio : Type := mkAudio {
  sampleRate : Q;
  fftSize : positive
}.

Record State : Type := mkState {
  massKg : R;
  isListening : bool;
  error : option string;
  sensitivity : Q;
  result : Result;
  audio : option Audio;
  animationFrameId : option positive;
  nextFrameId : positive
}.

Definition setResult (r : Result) (st : State) : State :=
  mkState (massKg st) (isListening st) (error st) (sensitivity st) r
    (audio st) (animationFrameId st) (nextFrameId st).

Definition setError (e : option string) (st : State) : State :=
  mkState (massKg st) (isListening st) e (sensitivity st) (result st)
    (audio st) (animationFrameId st) (nextFrameId st).

Definition setListening (b : bool) (st : State) : State :=
  mkState (massKg st) b (error st) (sensitivity st) (result st)
    (audio st) (animationFrameId st) (nextFrameId st).

Definition setAudio (a : option Audio) (st : State) : State :=
  mkState (massKg st) (isListening st) (error st) (sensitivity st) (result st)
    a (animationFrameId st) (nextFrameId st).

(** [animationFrameId = requestAnimationFrame(processAudio)]: the browser
    hands out a fresh non-zero handle. *)
Definition requestAnimationFrame (st : State) : State :=
  mkState (massKg st) (isListening st) (error st) (sensitivity st) (result st)
    (audio st) (Some (nextFrameId st)) (Pos.succ (nextFrameId st)).

Definition clearAnimationFrame (st : State) : State :=
  mkState (massKg st) (isListening st) (error st) (sensitivity st) (result st)
    (audio st) None (nextFrameId st).

(** [massKg.value > 0] (line 31) *)
Definition isMassValid (st : State) : bool :=
  if Rlt_dec 0 (massKg st) then true else false.

Definition calculateRipeness (st : State) (frequency : R) : State :=
  if Rle_dec (massKg st) 0 then st
  else
    let m := massKg st in
    let f := frequency in
    let ri := ripenessIndexOf f m in
    setResult
      {| baseFrequency := Some f;
         ripenessIndex := Some ri;
         ripenessScore := Some (scoreOf ri);
         sweetnessBrix := Some (sweetnessOf ri);
         verdict := fst (verdictOf ri);
         ripenessClass := snd (verdictOf ri) |} st.

(** Lines 156-164.  Stopping the tracks and closing the context act on the
    browser only. *)
Definition stopListening (st : State) : State :=
  setListening false
    (match animationFrameId st with
     | Some _ => clearAnimationFrame st
     | None => st
     end).

(** What the browser answers to [startDetection]. *)
Inductive MediaOutcome : Type :=
| Granted (rate : Q)
| Rejected (err : string).

Record Browser : Type := mkBrowser {
  hasMediaDevices : bool;
  getUserMedia : MediaOutcome
}.

(** Lines 69-113: schedule the first [processAudio]. *)
Definition detectThump (st : State) : State :=
  match audio st with
  | None => st
  | Some _ => requestAnimationFrame st
  end.

(** Lines 37-67. *)
Definition startDetection (b : Browser) (st : State) : State :=
  if negb (hasMediaDevices b) then
    setError (Some "Your browser doesn't support audio recording. Please use a modern browser like Chrome or Firefox."%string) st
  else
    let st1 := setListening true (setError None (setResult emptyResult st)) in
    match getUserMedia b with
    | Granted rate =>
        detectThump (setAudio (Some {| sampleRate := rate; fftSize := 16384 |}) st1)
    | Rejected err =>
        setListening false
          (setError (Some ("Could not access the microphone. Please grant permission and try again. " ++ err)%string) st1)
    end.

(** One run of the [processAudio] callback on the frame the analyser
    delivers (lines 76-110); drawing is left to the canvas. *)
Definition processAudio (dataArray : Frame) (st : State) : State :=
  match audio st with
  | None => st
  | Some a =>
      match evaluate dataArray (sampleRate a) (fftSize a)
              (absoluteThreshold (sensitivity st))
              (relativeThreshold (sensitivity st)) with
      | Some baseFrequencyHz =>
          stopListening (calculateRipeness st (Q2R baseFrequencyHz))
      | None => requestAnimationFrame st
      end
  end.

(** The start button of the template (line 270):
    [:disabled="isListening || !isMassValid" @click="startDetection"]. *)
Definition startDisabled (st : State) : bool :=
  isListening st || negb (isMassValid st).

Definition clickStart (b : Browser) (st : State) : State :=
  if startDisabled st then st else startDetection b st.

(** The state the page is mounted with (lines 7-28). *)
Definition initialState : State :=
  {| massKg := 4.5; isListening := false; error := None; sensitivity := 8%Q;
     result := emptyResult; audio := None; animationFrameId := None;
     nextFrameId := 1%positive |}.

(** The mass field and the sensitivity slider of the template (lines 239
    and 257), both [:disabled="isListening"]. *)
Definition inputMass (m : R) (st : State) : State :=
  if isListening st then st
  else mkState m (isListening st) (error st) (sensitivity st) (result st)
         (audio st) (animationFrameId st) (nextFrameId st).

Definition inputSensitivity (s : Q) (st : State) : State :=
  if isListening st then st
  else mkState (massKg st) (isListening st) (error st) s (result st)
         (audio st) (animationFrameId st) (nextFrameId st).

(** [analyser.frequencyBinCount], the length of the frame (line 73). *)
Definition frequencyBinCount (size : positive) : nat :=
  Z.to_nat (Z.pos size / 2).

(** Frames of the 16384-point analyser: silence, a tap whose loudest
    magnitude 200 sits in bins 35 and 37, and a saturated spectrum. *)
Definition silentFrame : Frame := repeat 0%Z (frequencyBinCount 16384).

Definition tapFrame : Frame :=
  (repeat 0 34 ++ [10; 200; 30; 200] ++ repeat 0 (frequencyBinCount 16384 - 38))%Z.

Definition loudFrame : Frame := repeat 255%Z (frequencyBinCount 16384).

(** A browser that has media devices and grants the microphone at the given
    sample rate. *)
Definition grantingBrowser (rate : Q) : Browser :=
  {| hasMediaDevices := true; getUserMedia := Granted rate |}.

(** ** Notions of the specification used to state the properties *)

(** [clamp(x, lo, hi)] as the specification writes it, on rationals and on
    reals. *)
Definition clampQ (x lo hi : Q) : Q :=
  if Qlt_le_dec x lo then lo else if Qlt_le_dec hi x then hi else x.

Definition clamp (x lo hi : R) : R :=
  if Rlt_dec x lo then lo else if Rlt_dec hi x then hi else x.

(** The magnitudes of the bins [lo, hi) of a frame. *)
Definition bandOf (dataArray : Frame) (lo hi : Z) : list Z :=
  firstn (Z.to_nat (hi - lo)) (skipn (Z.to_nat lo) dataArray).

Definition sumZ (l : list Z) : Z := fold_right Z.add 0%Z l.

(** The scan loop seen as a fold over the magnitudes of the band, for bins
    that lie inside the frame. *)

(** [scanStep] at a bin that holds [v]. *)
Definition scanValue (v i : Z) (s : Scan) : Scan :=
  if (peakAmplitude s <? v)%Z then
    {| peakAmplitude := v; peakIndex := i;
       totalAmplitude := numAdd (totalAmplitude s) (ofZ v) |}
  else
    {| peakAmplitude := peakAmplitude s; peakIndex := peakIndex s;
       totalAmplitude := numAdd (totalAmplitude s) (ofZ v) |}.

Fixpoint scanList (l : list Z) (i : Z) (s : Scan) : Scan :=
  match l with
  | [] => s
  | v :: l' => scanList l' (i + 1)%Z (scanValue v i s)
  end.

(** ** The session: what the page does with each event *)

(** The events the page reacts to: a click on the start button, an edit of
    the mass field, a move of the sensitivity slider, an animation frame
    with the spectrum the analyser delivers, and the unmounting of the
    component (line 203). *)
Inductive Event : Type :=
| ClickStart (b : Browser)
| InputMass (m : R)
| InputSensitivity (s : Q)
| AnimationFrame (dataArray : Frame)
| Unmounted.

(** The browser runs [processAudio] only while the handle returned by
    [requestAnimationFrame] is pending, that is, not cancelled by
    [stopListening].  A click is taken here as one uninterrupted call of
    [startDetection]: the promise of [getUserMedia] settles before any other
    event.  The events that can arrive while the call is suspended at its
    [await] are those of [pageHandle] below. *)
Definition handle (e : Event) (st : State) : State :=
  match e with
  | ClickStart b => clickStart b st
  | InputMass m => inputMass m st
  | InputSensitivity s => inputSensitivity s st
  | AnimationFrame dataArray =>
      match animationFrameId st with
      | Some _ => processAudio dataArray st
      | None => st
      end
  | Unmounted => stopListening st
  end.

Definition run (events : list Event) (st : State) : State :=
  fold_left (fun st e => handle e st) events st.

(** A result is either the empty one or a complete one within range. *)
Definition resultWellFormed (r : Result) : Prop :=
  r = emptyResult \/
  exists f ri score brix,
    baseFrequency r = Some f /\
    ripenessIndex r = Some ri /\ 0 <= ri /\
    ripenessScore r = Some score /\ 0 <= score <= 100 /\
    sweetnessBrix r = Some brix /\ 5 <= brix <= 13 /\
    (ripenessClass r = "ripe" \/ ripenessClass r = "borderline" \/
     ripenessClass r = "unripe")%string.

(** What holds of the page state between two events. *)
Definition sessionInvariant (st : State) : Prop :=
  (isListening st = true ->
     0 < massKg st /\ animationFrameId st <> None /\
     result st = emptyResult /\ error st = None /\
     exists a, audio st = Some a) /\
  (isListening st = false -> animationFrameId st = None) /\
  (forall a, audio st = Some a -> fftSize a = 16384%positive) /\
  resultWellFormed (result st).

(** ** Drawing the spectrum: [drawVisualization] (lines 166-201) *)

(** [- x], [x - y] and [x * y] *)
Definition numNeg (x : number) : number :=
  match x with
  | NaN => NaN
  | NegInf => PosInf
  | Fin a => Fin (- a)
  | PosInf => NegInf
  end.

Definition numSub (x y : number) : number := numAdd x (numNeg y).

Definition numMul (x y : number) : number :=
  match x, y with
  | NaN, _ | _, NaN => NaN
  | Fin a, Fin b => Fin (a * b)
  | Fin a, inf | inf, Fin a =>
      if Qzero a then NaN
      else if Qpositive a then inf else numNeg inf
  | PosInf, PosInf | NegInf, NegInf => PosInf
  | _, _ => NegInf
  end.

(** The canvas element behind [canvasRef]; [has2d] tells whether
    [getContext('2d')] returns a context. *)
Record Canvas : Type := mkCanvas {
  canvasWidth : N;
  canvasHeight : N;
  has2d : bool
}.

(** The calls made on the 2D context, in order. *)
Inductive DrawCommand : Type :=
| FillStyle (colour : string)
| FillRect (x y w h : number)
| LineWidth (w : number)
| StrokeStyle (colour : string)
| BeginPath
| MoveTo (x y : number)
| LineTo (x y : number)
| Stroke.

(** One iteration of the drawing loop at bin [i] with the pen at [x]. *)
Definition drawPoint (dataArray : Frame) (height : N) (i : Z) (x : number)
  : DrawCommand :=
  let v := numDiv (toNumber (readBin dataArray i)) (Fin 256) in
  let y := numMul v (ofZ (Z.of_N height)) in
  if (i =? 0)%Z then MoveTo x (numSub (ofZ (Z.of_N height)) y)
  else LineTo x (numSub (ofZ (Z.of_N height)) y).

(** [n] iterations of the drawing loop from bin [i] with the pen at [x]. *)
Fixpoint drawLoop (dataArray : Frame) (height : N) (sliceWidth : number)
    (n : nat) (i : Z) (x : number) : list DrawCommand :=
  match n with
  | O => []
  | S n' =>
      drawPoint dataArray height i x
      :: drawLoop dataArray height sliceWidth n' (i + 1)%Z (numAdd x sliceWidth)
  end.

Definition drawVisualization (canvas : option Canvas) (dataArray : Frame)
    (lo hi : Z) : list DrawCommand :=
  match canvas with
  | None => []
  | Some c =>
      if negb (has2d c) then []
      else
        let width := ofZ (Z.of_N (canvasWidth c)) in
        let height := ofZ (Z.of_N (canvasHeight c)) in
        let sliceWidth := numDiv (numMul width (Fin 1)) (ofZ (hi - lo)) in
        [FillStyle "rgb(245, 245, 245)";
         FillRect (ofZ 0) (ofZ 0) width height;
         LineWidth (ofZ 2);
         StrokeStyle "rgb(50, 50, 50)";
         BeginPath]
        ++ drawLoop dataArray (canvasHeight c) sliceWidth
             (Z.to_nat (hi - lo)) lo (ofZ 0)
        ++ [LineTo width height; Stroke]
  end.

(** The canvas of the template (line 289). *)
Definition templateCanvas : Canvas :=
  {| canvasWidth := 400; canvasHeight := 100; has2d := true |}.

(** A path command stays inside the canvas when both coordinates are finite
    and lie between 0 and the width, respectively the height. *)
Definition insideCanvas (c : Canvas) (cmd : DrawCommand) : Prop :=
  match cmd with
  | MoveTo x y | LineTo x y =>
      exists qx qy, x = Fin qx /\ y = Fin qy /\
        (0 <= qx <= inject_Z (Z.of_N (canvasWidth c)))%Q /\
        (0 <= qy <= inject_Z (Z.of_N (canvasHeight c)))%Q
  | _ => True
  end.

Definition isMoveTo (cmd : DrawCommand) : bool :=
  match cmd with
  | MoveTo _ _ => true
  | _ => false
  end.

(** ** The page with its pending asynchronous work *)

(** [startDetection] is an [async] function: it runs up to the [await] of
    line 49, is suspended until the browser settles the promise of
    [getUserMedia], and resumes after it.  Between the two halves any other
    event can reach the page.  A [Page] is the state together with what is
    pending in the browser: whether the component is still mounted, how many
    calls of [startDetection] are suspended at the [await], and the handles
    of the animation frame callbacks requested and neither run nor
    cancelled. *)
Record Page : Type := mkPage {
  pageState : State;
  mounted : bool;
  awaitingMedia : nat;
  scheduledFrames : list positive
}.

Definition initialPage : Page :=
  {| pageState := initialState; mounted := true; awaitingMedia := 0;
     scheduledFrames := [] |}.

Definition withState (st : State) (p : Page) : Page :=
  mkPage st (mounted p) (awaitingMedia p) (scheduledFrames p).

(** Lines 38-47: [startDetection] up to the [await]; the boolean tells
    whether the call is now suspended. *)
Definition startDetectionBegin (hasDevices : bool) (st : State) : State * bool :=
  if negb hasDevices then
    (setError (Some "Your browser doesn't support audio recording. Please use a modern browser like Chrome or Firefox."%string) st, false)
  else
    (setListening true (setError None (setResult emptyResult st)), true).

(** Lines 49-66: [startDetection] from the settled promise on. *)
Definition startDetectionResume (outcome : MediaOutcome) (st : State) : State :=
  match outcome with
  | Granted rate =>
      detectThump (setAudio (Some {| sampleRate := rate; fftSize := 16384 |}) st)
  | Rejected err =>
      setListening false
        (setError (Some ("Could not access the microphone. Please grant permission and try again. " ++ err)%string) st)
  end.

(** [requestAnimationFrame(processAudio)]: the new handle is pending. *)
Definition pageRequestFrame (p : Page) : Page :=
  mkPage (requestAnimationFrame (pageState p)) (mounted p) (awaitingMedia p)
    (nextFrameId (pageState p) :: scheduledFrames p).

(** [cancelAnimationFrame(id)] *)
Definition cancelFrame (id : option positive) (frames : list positive)
  : list positive :=
  match id with
  | Some x => remove Pos.eq_dec x frames
  | None => frames
  end.

(** [stopListening] cancels the callback whose handle [animationFrameId]
    holds. *)
Definition pageStopListening (p : Page) : Page :=
  mkPage (stopListening (pageState p)) (mounted p) (awaitingMedia p)
    (cancelFrame (animationFrameId (pageState p)) (scheduledFrames p)).

Definition pageDetectThump (p : Page) : Page :=
  match audio (pageState p) with
  | None => p
  | Some _ => pageRequestFrame p
  end.

Definition pageResume (outcome : MediaOutcome) (p : Page) : Page :=
  match outcome with
  | Granted rate =>
      pageDetectThump
        (withState
           (setAudio (Some {| sampleRate := rate; fftSize := 16384 |})
              (pageState p)) p)
  | Rejected _ => withState (startDetectionResume outcome (pageState p)) p
  end.

Definition pageProcessAudio (dataArray : Frame) (p : Page) : Page :=
  match audio (pageState p) with
  | None => p
  | Some a =>
      match evaluate dataArray (sampleRate a) (fftSize a)
              (absoluteThreshold (sensitivity (pageState p)))
              (relativeThreshold (sensitivity (pageState p))) with
      | Some baseFrequencyHz =>
          pageStopListening
            (withState (calculateRipeness (pageState p) (Q2R baseFrequencyHz)) p)
      | None => pageRequestFrame p
      end
  end.

(** What can happen to the page: the controls of the template act while the
    component is mounted; a promise settles only if a call is suspended; a
    frame callback runs only if its handle is pending; the unmount hook
    (line 203) runs once. *)
Inductive PageEvent : Type :=
| StartClicked (hasDevices : bool)
| MediaSettled (outcome : MediaOutcome)
| MassEdited (m : R)
| SensitivityMoved (s : Q)
| FrameFired (id : positive) (dataArray : Frame)
| ComponentUnmounted.

Definition pageHandle (e : PageEvent) (p : Page) : Page :=
  match e with
  | StartClicked hasDevices =>
      if mounted p && negb (startDisabled (pageState p)) then
        let (st, suspended) := startDetectionBegin hasDevices (pageState p) in
        mkPage st (mounted p)
          (if suspended then S (awaitingMedia p) else awaitingMedia p)
          (scheduledFrames p)
      else p
  | MediaSettled outcome =>
      match awaitingMedia p with
      | O => p
      | S n =>
          pageResume outcome
            (mkPage (pageState p) (mounted p) n (scheduledFrames p))
      end
  | MassEdited m =>
      if mounted p then withState (inputMass m (pageState p)) p else p
  | SensitivityMoved s =>
      if mounted p then withState (inputSensitivity s (pageState p)) p else p
  | FrameFired id dataArray =>
      if existsb (Pos.eqb id) (scheduledFrames p) then
        pageProcessAudio dataArray
          (mkPage (pageState p) (mounted p) (awaitingMedia p)
             (remove Pos.eq_dec id (scheduledFrames p)))
      else p
  | ComponentUnmounted =>
      if mounted p then
        pageStopListening
          (mkPage (pageState p) false (awaitingMedia p) (scheduledFrames p))
      else p
  end.

Definition pageRun (events : list PageEvent) (p : Page) : Page :=
  fold_left (fun p e => pageHandle e p) events p.

(** The three phases of the page. *)
Definition quiescent (p : Page) : Prop :=
  awaitingMedia p = O /\ scheduledFrames p = [] /\
  isListening (pageState p) = false /\
  animationFrameId (pageState p) = None.

Definition promptOpen (p : Page) : Prop :=
  awaitingMedia p = 1%nat /\ scheduledFrames p = [] /\
  animationFrameId (pageState p) = None.

Definition loopRunning (p : Page) : Prop :=
  awaitingMedia p = O /\
  (exists x, scheduledFrames p = [x] /\
             animationFrameId (pageState p) = Some x) /\
  exists a, audio (pageState p) = Some a.

(** What holds of the page between two events. *)
Definition pageInvariant (p : Page) : Prop :=
  (quiescent p \/
   ((promptOpen p \/ loopRunning p) /\
    0 < massKg (pageState p) /\
    result (pageState p) = emptyResult /\
    error (pageState p) = None /\
    isListening (pageState p) = mounted p)) /\
  (forall a, audio (pageState p) = Some a -> fftSize a = 16384%positive) /\
  resultWellFormed (result (pageState p)).

(** * Properties *)

(** ** SensitivityMapper *)

Section Thresholds.
Local Open Scope Q_scope.

Lemma absoluteThreshold_eq (s : Q) : absoluteThreshold s == 160 - 10 * s.
Proof. unfold absoluteThreshold. ring. Qed.

Lemma relativeThreshold_eq (s : Q) : relativeThreshold s == 45 - 3 * s.
Proof. unfold relativeThreshold. ring. Qed.

Lemma clampQ_id (s lo hi : Q) : lo <= s -> s <= hi -> clampQ s lo hi = s.
Proof.
  intros Hlo Hhi. unfold clampQ.
  destruct (Qlt_le_dec s lo) as [H | _]; [exfalso; lra |].
  destruct (Qlt_le_dec hi s) as [H | _]; [exfalso; lra | reflexivity].
Qed.

Lemma clampQ_range (s lo hi : Q) : lo <= hi -> lo <= clampQ s lo hi <= hi.
Proof.
  intros Hle. unfold clampQ.
  destruct (Qlt_le_dec s lo); [lra |].
  destruct (Qlt_le_dec hi s); lra.
Qed.

(** C8.  On the dial's range [1, 20] the absolute threshold is [160 - 10 s]
    and the relative threshold is [45 - 3 s], and both get strictly smaller
    when the sensitivity grows. *)
Theorem thresholds_linear_strictly_decreasing :
  (forall s, 1 <= s -> s <= 20 ->
     absoluteThreshold s == 160 - 10 * s /\
     relativeThreshold s == 45 - 3 * s) /\
  (forall s1 s2, 1 <= s1 -> s1 < s2 -> s2 <= 20 ->
     absoluteThreshold s2 < absoluteThreshold s1 /\
     relativeThreshold s2 < relativeThreshold s1).
Proof.
  split.
  - intros s _ _. split; [apply absoluteThreshold_eq | apply relativeThreshold_eq].
  - intros s1 s2 _ Hlt _.
    rewrite !absoluteThreshold_eq, !relativeThreshold_eq. split; lra.
Qed.

Lemma thresholds_linear_strictly_decreasing_witness :
  (absoluteThreshold 8 == 80 /\ relativeThreshold 8 == 21) /\
  (absoluteThreshold 9 < absoluteThreshold 8 /\
   relativeThreshold 9 < relativeThreshold 8).
Proof.
  destruct thresholds_linear_strictly_decreasing as [Hval Hdec].
  split.
  - destruct (Hval 8) as [Ha Hr]; [lra | lra |].
    split; [rewrite Ha | rewrite Hr]; reflexivity.
  - apply (Hdec 8 9); lra.
Defined.

(** C4, as the specification states it, fails: the mapper applies its two
    formulas to the dial value as it is.  A sensitivity of 0 gives the
    absolute threshold 160 where 1 gives 150, and 25 gives -90 where 20
    gives -40. *)
Lemma thresholds_not_clamped :
  clampQ 0 1 20 == 1 /\ clampQ 25 1 20 == 20 /\
  ~ absoluteThreshold 0 == absoluteThreshold (clampQ 0 1 20) /\
  ~ relativeThreshold 0 == relativeThreshold (clampQ 0 1 20) /\
  ~ absoluteThreshold 25 == absoluteThreshold (clampQ 25 1 20) /\
  ~ relativeThreshold 25 == relativeThreshold (clampQ 25 1 20).
Proof. repeat split; vm_compute; congruence. Qed.

(** C4, amended.  For every dial value the thresholds are [160 - 10 s] and
    [45 - 3 s] with no clamping, so they agree with the thresholds of the
    value clamped into [1, 20] exactly when the value already lies in
    [1, 20]. *)
Theorem thresholds_agree_with_clamped_iff_in_range (s : Q) :
  absoluteThreshold s == 160 - 10 * s /\
  relativeThreshold s == 45 - 3 * s /\
  ((absoluteThreshold s == absoluteThreshold (clampQ s 1 20) /\
    relativeThreshold s == relativeThreshold (clampQ s 1 20))
   <-> 1 <= s <= 20).
Proof.
  split; [apply absoluteThreshold_eq |].
  split; [apply relativeThreshold_eq |].
  split.
  - intros [Ha _]. rewrite !absoluteThreshold_eq in Ha.
    assert (Hc : clampQ s 1 20 == s) by lra.
    assert (Hr := clampQ_range s 1 20). lra.
  - intros [Hlo Hhi]. rewrite (clampQ_id s 1 20 Hlo Hhi). split; reflexivity.
Qed.

End Thresholds.

(** ** RipenessModel *)

Section Ripeness.
Local Open Scope R_scope.

Lemma Rpower_one_base (y : R) : Rpower 1 y = 1.
Proof. unfold Rpower. rewrite ln_1, Rmult_0_r. apply exp_0. Qed.

Lemma Rpower_two_thirds_pos (m : R) : 0 < Rpower m (2 / 3).
Proof. unfold Rpower. apply exp_pos. Qed.

(** [m ** (2 / 3)] is the positive number whose cube is [m] squared. *)
Lemma Rpower_two_thirds_cubed (m : R) : 0 < m -> Rpower m (2 / 3) ^ 3 = m ^ 2.
Proof.
  intros Hm.
  rewrite <- (Rpower_pow 3 _ (Rpower_two_thirds_pos m)).
  rewrite Rpower_mult.
  replace (2 / 3 * INR 3) with (INR 2) by (simpl; field).
  apply Rpower_pow. exact Hm.
Qed.

Lemma ripenessIndexOf_sqrt (x : R) : 0 <= x -> ripenessIndexOf (sqrt x) 1 = x.
Proof.
  intros Hx. unfold ripenessIndexOf.
  rewrite Rpower_one_base, Rmult_1_r. apply pow2_sqrt. exact Hx.
Qed.

(** [Math.max(lo, Math.min(hi, x))] is the clamp of the specification. *)
Lemma max_min_clamp (x lo hi : R) : lo <= hi -> Rmax lo (Rmin hi x) = clamp x lo hi.
Proof.
  intros Hle. unfold clamp, Rmax, Rmin.
  destruct (Rlt_dec x lo), (Rlt_dec hi x), (Rle_dec hi x);
    try destruct (Rle_dec lo hi); try destruct (Rle_dec lo x); lra.
Qed.

Lemma scoreOf_clamp (ri : R) :
  scoreOf ri = clamp (100 * (95000 - ri) / (95000 - 60000)) 0 100.
Proof. unfold scoreOf. cbv zeta. apply max_min_clamp. lra. Qed.

Lemma sweetnessOf_clamp (ri : R) :
  sweetnessOf ri = clamp (12 - 4 * (ri - 60000) / 30000) 5 13.
Proof.
  unfold sweetnessOf. cbv zeta. rewrite max_min_clamp by lra.
  f_equal. field.
Qed.

Lemma scoreOf_range (ri : R) : 0 <= scoreOf ri <= 100.
Proof.
  rewrite scoreOf_clamp. unfold clamp.
  destruct (Rlt_dec _ 0); [lra |]. destruct (Rlt_dec 100 _); lra.
Qed.

Lemma sweetnessOf_range (ri : R) : 5 <= sweetnessOf ri <= 13.
Proof.
  rewrite sweetnessOf_clamp. unfold clamp.
  destruct (Rlt_dec _ 5); [lra |]. destruct (Rlt_dec 13 _); lra.
Qed.

Lemma clamp_monotone (x y lo hi : R) :
  lo <= hi -> x <= y -> clamp x lo hi <= clamp y lo hi.
Proof.
  intros Hle Hxy. unfold clamp.
  destruct (Rlt_dec x lo), (Rlt_dec y lo), (Rlt_dec hi x), (Rlt_dec hi y); lra.
Qed.

Lemma scoreOf_antitone (r1 r2 : R) : r1 <= r2 -> scoreOf r2 <= scoreOf r1.
Proof.
  intros H. rewrite !scoreOf_clamp. apply clamp_monotone; lra.
Qed.

Lemma sweetnessOf_antitone (r1 r2 : R) : r1 <= r2 -> sweetnessOf r2 <= sweetnessOf r1.
Proof.
  intros H. rewrite !sweetnessOf_clamp. apply clamp_monotone; lra.
Qed.

Lemma ripenessIndexOf_monotone (m f1 f2 : R) :
  0 <= f1 -> f1 <= f2 -> ripenessIndexOf f1 m <= ripenessIndexOf f2 m.
Proof.
  intros H0 H12. unfold ripenessIndexOf.
  apply Rmult_le_compat_r; [left; apply Rpower_two_thirds_pos |].
  nra.
Qed.

(** What [calculateRipeness] stores when the mass is valid. *)
Lemma calculateRipeness_valid (st : State) (f : R) :
  0 < massKg st ->
  result (calculateRipeness st f) =
    let ri := ripenessIndexOf f (massKg st) in
    {| baseFrequency := Some f;
       ripenessIndex := Some ri;
       ripenessScore := Some (scoreOf ri);
       sweetnessBrix := Some (sweetnessOf ri);
       verdict := fst (verdictOf ri);
       ripenessClass := snd (verdictOf ri) |}.
Proof.
  intros Hm. unfold calculateRipeness.
  destruct (Rle_dec (massKg st) 0) as [H | _]; [lra | reflexivity].
Qed.

Lemma calculateRipeness_invalid (st : State) (f : R) :
  massKg st <= 0 -> calculateRipeness st f = st.
Proof.
  intros Hm. unfold calculateRipeness.
  destruct (Rle_dec (massKg st) 0) as [_ | H]; [reflexivity | lra].
Qed.

Lemma verdictOf_class (ri : R) :
  (snd (verdictOf ri) = "ripe"%string <-> ri < 74000) /\
  (snd (verdictOf ri) = "borderline"%string <-> 74000 <= ri < 85000) /\
  (snd (verdictOf ri) = "unripe"%string <-> 85000 <= ri).
Proof.
  unfold verdictOf.
  destruct (Rlt_dec ri 74000); [| destruct (Rlt_dec ri 85000)]; simpl;
    repeat split; intros; try discriminate; try lra.
Qed.

(** C2.  With a positive mass, [calculateRipeness] stores the ripeness index
    [f^2 * m^(2/3)], the sweetness [clamp(12 - 4 (index - 60000) / 30000, 5,
    13)] and the score [clamp(100 (95000 - index) / (95000 - 60000), 0,
    100)]; an index of 60000 gives the score 100 and the sweetness 12, and an
    index of 95000 gives the score 0. *)
Theorem calculateRipeness_formulas (st : State) (f : R) (Hm : 0 < massKg st) :
  let r := result (calculateRipeness st f) in
  let ri := f ^ 2 * Rpower (massKg st) (2 / 3) in
  ripenessIndex r = Some ri /\
  sweetnessBrix r = Some (clamp (12 - 4 * (ri - 60000) / 30000) 5 13) /\
  ripenessScore r = Some (clamp (100 * (95000 - ri) / (95000 - 60000)) 0 100) /\
  (ri = 60000 -> ripenessScore r = Some 100 /\ sweetnessBrix r = Some 12) /\
  (ri = 95000 -> ripenessScore r = Some 0).
Proof.
  intros r ri. subst r. rewrite (calculateRipeness_valid st f Hm).
  cbv zeta. simpl. fold ri.
  change (ripenessIndexOf f (massKg st)) with ri.
  rewrite scoreOf_clamp, sweetnessOf_clamp.
  repeat split; try reflexivity.
  - rewrite H. f_equal. unfold clamp.
    destruct (Rlt_dec _ 0); [lra |]. destruct (Rlt_dec 100 _); lra.
  - rewrite H. f_equal. unfold clamp.
    destruct (Rlt_dec _ 5); [lra |]. destruct (Rlt_dec 13 _); lra.
  - intros H. rewrite H. f_equal. unfold clamp.
    destruct (Rlt_dec _ 0); [lra |]. destruct (Rlt_dec 100 _); lra.
Qed.

Lemma calculateRipeness_formulas_witness :
  0 < massKg (inputMass 1 initialState) /\
  ripenessScore (result (calculateRipeness (inputMass 1 initialState) (sqrt 60000)))
    = Some 100 /\
  sweetnessBrix (result (calculateRipeness (inputMass 1 initialState) (sqrt 60000)))
    = Some 12.
Proof.
  assert (Hm : 0 < massKg (inputMass 1 initialState)) by (simpl; lra).
  split; [exact Hm |].
  destruct (calculateRipeness_formulas (inputMass 1 initialState) (sqrt 60000) Hm)
    as (_ & _ & _ & H60 & _).
  apply H60. apply (ripenessIndexOf_sqrt 60000). lra.
Defined.



(** C6, as the specification states it, fails: with a mass of 0 the guard on
    line 117 makes [calculateRipeness] return at once.  Nothing is raised,
    no error is recorded and the result keeps its value. *)
Lemma calculateRipeness_zero_mass_is_silent :
  let st := inputMass 0 initialState in
  massKg st <= 0 /\
  calculateRipeness st 120 = st /\
  error (calculateRipeness st 120) = None /\
  result (calculateRipeness st 120) = emptyResult.
Proof.
  cbv zeta.
  assert (H : calculateRipeness (inputMass 0 initialState) 120
              = inputMass 0 initialState)
    by (apply calculateRipeness_invalid; simpl; lra).
  rewrite H. simpl. repeat split; lra.
Qed.

(** C6, amended.  For every frequency and every mass that is zero or
    negative, [calculateRipeness] returns without raising and leaves the
    whole state, the result and the error field included, as it was. *)
Theorem calculateRipeness_nonpositive_mass_noop (st : State) (f : R)
    (Hm : massKg st <= 0) :
  calculateRipeness st f = st /\
  result (calculateRipeness st f) = result st /\
  error (calculateRipeness st f) = error st.
Proof.
  rewrite (calculateRipeness_invalid st f Hm). repeat split.
Qed.

Lemma calculateRipeness_nonpositive_mass_noop_witness :
  massKg (inputMass (-2) initialState) <= 0 /\
  calculateRipeness (inputMass (-2) initialState) 150
    = inputMass (-2) initialState.
Proof.
  assert (Hm : massKg (inputMass (-2) initialState) <= 0) by (simpl; lra).
  split; [exact Hm |].
  apply (calculateRipeness_nonpositive_mass_noop _ 150 Hm).
Defined.

(** C10.  For a fixed positive mass the ripeness index does not decrease
    when the tap frequency grows from a non-negative value, the score and
    the sweetness do not increase when the index grows, and so the tap of
    higher frequency never gets the higher score or the higher sweetness. *)
Theorem higher_frequency_never_scores_higher (st : State) (f1 f2 : R)
    (Hm : 0 < massKg st) (H0 : 0 <= f1) (H12 : f1 <= f2) :
  ripenessIndexOf f1 (massKg st) <= ripenessIndexOf f2 (massKg st) /\
  (forall r1 r2, r1 <= r2 ->
     scoreOf r2 <= scoreOf r1 /\ sweetnessOf r2 <= sweetnessOf r1) /\
  exists s1 s2 b1 b2,
    ripenessScore (result (calculateRipeness st f1)) = Some s1 /\
    ripenessScore (result (calculateRipeness st f2)) = Some s2 /\
    sweetnessBrix (result (calculateRipeness st f1)) = Some b1 /\
    sweetnessBrix (result (calculateRipeness st f2)) = Some b2 /\
    s2 <= s1 /\ b2 <= b1.
Proof.
  assert (Hri := ripenessIndexOf_monotone (massKg st) f1 f2 H0 H12).
  split; [exact Hri |]. split.
  - intros r1 r2 Hr. split;
      [apply scoreOf_antitone | apply sweetnessOf_antitone]; exact Hr.
  - rewrite !(calculateRipeness_valid st _ Hm). cbv zeta. simpl.
    do 4 eexists. repeat split; try reflexivity.
    + apply scoreOf_antitone; exact Hri.
    + apply sweetnessOf_antitone; exact Hri.
Qed.

Lemma higher_frequency_never_scores_higher_witness :
  ripenessIndexOf 120 (massKg initialState)
    <= ripenessIndexOf 180 (massKg initialState) /\
  scoreOf (ripenessIndexOf 180 (massKg initialState))
    <= scoreOf (ripenessIndexOf 120 (massKg initialState)).
Proof.
  assert (Hm : 0 < massKg initialState) by (simpl; lra).
  destruct (higher_frequency_never_scores_higher initialState 120 180 Hm)
    as (Hri & Hmono & _); [lra | lra |].
  split; [exact Hri |]. apply (Hmono _ _ Hri).
Defined.

End Ripeness.

(** ** Starting a session *)

Section Start.
Local Open Scope R_scope.

Lemma isMassValid_false (st : State) : massKg st <= 0 -> isMassValid st = false.
Proof.
  intros H. unfold isMassValid. destruct (Rlt_dec 0 (massKg st)); [lra | reflexivity].
Qed.

Lemma isMassValid_true (st : State) : 0 < massKg st -> isMassValid st = true.
Proof.
  intros H. unfold isMassValid. destruct (Rlt_dec 0 (massKg st)); [reflexivity | lra].
Qed.

(** [startDetection] never reads the mass. *)
Lemma startDetection_granted (b : Browser) (st : State) (rate : Q) :
  hasMediaDevices b = true -> getUserMedia b = Granted rate ->
  isListening (startDetection b st) = true /\
  error (startDetection b st) = None /\
  massKg (startDetection b st) = massKg st.
Proof.
  intros Hdev Hmedia. unfold startDetection. rewrite Hdev, Hmedia. simpl.
  repeat split.
Qed.

(** C5, as the specification states it, fails: [startDetection] called with
    a mass of 0 in a browser that grants the microphone records no error and
    switches to listening, with the first frame callback scheduled. *)
Lemma startDetection_zero_mass_listens :
  let st := inputMass 0 initialState in
  let b := {| hasMediaDevices := true; getUserMedia := Granted 48000 |} in
  massKg st <= 0 /\
  isListening st = false /\
  isListening (startDetection b st) = true /\
  error (startDetection b st) = None /\
  animationFrameId (startDetection b st) = Some 1%positive.
Proof. cbv zeta. simpl. repeat split. lra. Qed.

(** C5, amended.  While the mass is zero or negative the start button is
    disabled, so a click on it leaves the state as it was: an idle page
    stays idle and no error is reported.  [startDetection] itself does not
    look at the mass. *)
Theorem start_button_refuses_nonpositive_mass (b : Browser) (st : State)
    (Hm : massKg st <= 0) :
  isMassValid st = false /\
  startDisabled st = true /\
  clickStart b st = st /\
  (isListening st = false -> isListening (clickStart b st) = false) /\
  (forall rate, hasMediaDevices b = true -> getUserMedia b = Granted rate ->
     isListening (startDetection b st) = true /\
     error (startDetection b st) = None).
Proof.
  assert (Hv := isMassValid_false st Hm).
  assert (Hd : startDisabled st = true).
  { unfold startDisabled. rewrite Hv. apply orb_true_r. }
  assert (Hc : clickStart b st = st).
  { unfold clickStart. rewrite Hd. reflexivity. }
  rewrite Hc. repeat split; auto;
    destruct (startDetection_granted b st rate) as (Hl & He & _); assumption.
Qed.

Lemma start_button_refuses_nonpositive_mass_witness :
  massKg (inputMass 0 initialState) <= 0 /\
  clickStart {| hasMediaDevices := true; getUserMedia := Granted 48000 |}
    (inputMass 0 initialState) = inputMass 0 initialState.
Proof.
  assert (Hm : massKg (inputMass 0 initialState) <= 0) by (simpl; lra).
  split; [exact Hm |].
  apply (start_button_refuses_nonpositive_mass _ _ Hm).
Defined.

End Start.

(** ** ThumpDetector *)

Section Detector.
Local Open Scope Z_scope.

(** *** Comparisons and division on finite numbers *)

Lemma Qle_bool_inject_Z (a b : Z) :
  Qle_bool (inject_Z a) (inject_Z b) = (a <=? b).
Proof. unfold Qle_bool, inject_Z. simpl. rewrite !Z.mul_1_r. reflexivity. Qed.

Lemma numGt_ofZ (a b : Z) : numGt (ofZ a) (ofZ b) = (b <? a).
Proof.
  unfold numGt, ofZ. rewrite Qle_bool_inject_Z, Z.ltb_antisym. reflexivity.
Qed.

Lemma numGt_Fin (a b : Q) : numGt (Fin a) (Fin b) = true <-> (b < a)%Q.
Proof.
  unfold numGt. rewrite negb_true_iff, <- not_true_iff_false, Qle_bool_iff.
  split; [apply Qnot_le_lt | apply Qlt_not_le].
Qed.

Lemma numGt_NaN_r (x : number) : numGt x NaN = false.
Proof. destruct x; reflexivity. Qed.

Lemma numDiv_Fin_nonzero (q : Q) (n : Z) :
  n <> 0 -> numDiv (Fin q) (ofZ n) = Fin (q / inject_Z n).
Proof.
  intros Hn. unfold numDiv, ofZ, Qzero. simpl.
  destruct (Z.eqb_spec n 0); [contradiction | reflexivity].
Qed.

(** *** The band indices *)

Lemma mathRound_monotone (x y : Q) : (x <= y)%Q -> mathRound x <= mathRound y.
Proof. intros H. unfold mathRound. apply Qfloor_resp_le. lra. Qed.

Lemma mathRound_nonneg (x : Q) : (0 <= x)%Q -> 0 <= mathRound x.
Proof.
  intros H. change 0 with (Qfloor 0). unfold mathRound.
  apply Qfloor_resp_le. lra.
Qed.

Lemma binWidth_pos (rate : Q) (size : positive) :
  (0 < rate)%Q -> (0 < binWidth rate size)%Q.
Proof.
  intros H. unfold binWidth. apply Qlt_shift_div_l.
  - reflexivity.
  - lra.
Qed.

Lemma minIndex_nonneg (rate : Q) (size : positive) :
  (0 < rate)%Q -> 0 <= minIndex rate size.
Proof.
  intros H. unfold minIndex. apply mathRound_nonneg.
  apply Qle_shift_div_l; [apply binWidth_pos; exact H |].
  unfold relevantFreqMin. lra.
Qed.

Lemma minIndex_le_maxIndex (rate : Q) (size : positive) :
  (0 < rate)%Q -> minIndex rate size <= maxIndex rate size.
Proof.
  intros H. unfold minIndex, maxIndex. apply mathRound_monotone.
  assert (Hw := binWidth_pos rate size H).
  unfold Qdiv. apply Qmult_le_compat_r.
  - unfold relevantFreqMin, relevantFreqMax. lra.
  - apply Qlt_le_weak, Qinv_lt_0_compat. exact Hw.
Qed.

(** *** The scan loop as a fold over the magnitudes of the band *)

Lemma scanStep_in_range (d : Frame) (i v : Z) (s : Scan) :
  readBin d i = Some v -> scanStep d i s = scanValue v i s.
Proof.
  intros Hr. unfold scanStep, scanValue. rewrite Hr. simpl toNumber.
  rewrite numGt_ofZ. reflexivity.
Qed.

Lemma skipn_cons_nth_error (A : Type) (l : list A) (k : nat) (v : A) :
  nth_error l k = Some v -> skipn k l = v :: skipn (S k) l.
Proof.
  revert l. induction k as [| k IH]; intros [| a l] H; simpl in H; try discriminate.
  - injection H as ->. reflexivity.
  - apply (IH l H).
Qed.

Lemma readBin_nat (d : Frame) (i : Z) :
  0 <= i -> readBin d i = nth_error d (Z.to_nat i).
Proof.
  intros Hi. unfold readBin. destruct (Z.ltb_spec i 0); [lia | reflexivity].
Qed.

Lemma scanLoop_scanList (d : Frame) (n : nat) :
  forall (i : Z) (s : Scan),
    0 <= i -> (Z.to_nat i + n <= List.length d)%nat ->
    scanLoop d n i s = scanList (firstn n (skipn (Z.to_nat i) d)) i s.
Proof.
  induction n as [| n IH]; intros i s Hi Hlen; [reflexivity |].
  destruct (nth_error d (Z.to_nat i)) as [v |] eqn:Hv.
  - rewrite (skipn_cons_nth_error _ _ _ _ Hv). simpl.
    rewrite (scanStep_in_range d i v s) by (rewrite readBin_nat; assumption).
    rewrite IH by lia.
    replace (Z.to_nat (i + 1)) with (S (Z.to_nat i)) by lia. reflexivity.
  - apply nth_error_None in Hv. lia.
Qed.

Lemma scanBand_scanList (d : Frame) (lo hi : Z) :
  0 <= lo -> hi <= Z.of_nat (List.length d) ->
  scanBand d lo hi = scanList (bandOf d lo hi) lo scanInit.
Proof.
  intros Hlo Hhi. unfold scanBand, bandOf.
  destruct (Z.le_gt_cases lo hi) as [Hle | Hgt].
  - apply scanLoop_scanList; lia.
  - replace (Z.to_nat (hi - lo)) with 0%nat by lia. reflexivity.
Qed.

Lemma bandOf_length (d : Frame) (lo hi : Z) :
  0 <= lo -> hi <= Z.of_nat (List.length d) ->
  List.length (bandOf d lo hi) = Z.to_nat (hi - lo).
Proof.
  intros Hlo Hhi. unfold bandOf. rewrite length_firstn, length_skipn. lia.
Qed.


Lemma In_firstn_inv (A : Type) (n : nat) :
  forall (l : list A) (v : A), In v (firstn n l) -> In v l.
Proof.
  induction n as [| n IH]; intros [| a l] v H; simpl in H; try contradiction.
  destruct H as [-> | H]; [left; reflexivity | right; apply (IH l v H)].
Qed.

Lemma In_skipn_inv (A : Type) (n : nat) :
  forall (l : list A) (v : A), In v (skipn n l) -> In v l.
Proof.
  induction n as [| n IH]; intros [| a l] v H; simpl in H; try contradiction.
  - exact H.
  - right. apply (IH l v H).
Qed.

Lemma bandOf_incl (d : Frame) (lo hi v : Z) : In v (bandOf d lo hi) -> In v d.
Proof.
  unfold bandOf. intros H.
  apply In_firstn_inv in H. apply (In_skipn_inv _ _ _ _ H).
Qed.

(** *** Reading past the end of the frame *)

Lemma numAdd_NaN_r (x : number) : numAdd x NaN = NaN.
Proof. destruct x; reflexivity. Qed.

Lemma scanStep_total_NaN (d : Frame) (i : Z) (s : Scan) :
  totalAmplitude s = NaN \/ readBin d i = None ->
  totalAmplitude (scanStep d i s) = NaN.
Proof.
  intros [H | H]; unfold scanStep; rewrite H;
    destruct (numGt _ _); simpl; try reflexivity; apply numAdd_NaN_r.
Qed.

Lemma scanLoop_total_NaN (d : Frame) (n : nat) :
  forall (i : Z) (s : Scan),
    totalAmplitude s = NaN \/
    (exists j, i <= j < i + Z.of_nat n /\ readBin d j = None) ->
    totalAmplitude (scanLoop d n i s) = NaN.
Proof.
  induction n as [| n IH]; intros i s H.
  - destruct H as [H | (j & Hj & _)]; [exact H | lia].
  - simpl. apply IH. destruct H as [H | (j & Hj & Hr)].
    + left. apply scanStep_total_NaN. left. exact H.
    + destruct (Z.eq_dec j i) as [-> | Hne].
      * left. apply scanStep_total_NaN. right. exact Hr.
      * right. exists j. split; [lia | exact Hr].
Qed.

(** A band that reaches outside the frame sums an [undefined] element: the
    total and the average are [NaN] and no thump is declared. *)
Lemma evaluateBand_outside_frame (d : Frame) (lo hi j : Z) (width absT relT : Q) :
  lo <= j < hi -> readBin d j = None ->
  evaluateBand d lo hi width absT relT = None.
Proof.
  intros Hj Hr. unfold evaluateBand, thumpCondition, averageAmplitude. cbv zeta.
  assert (Ht : totalAmplitude (scanBand d lo hi) = NaN).
  { unfold scanBand. apply scanLoop_total_NaN. right. exists j.
    split; [lia | exact Hr]. }
  rewrite Ht. simpl numDiv. simpl numAdd. rewrite numGt_NaN_r, andb_false_r.
  reflexivity.
Qed.

(** *** What the loop computes *)

Lemma scanValue_peak (v i : Z) (s : Scan) :
  (peakAmplitude s < v /\
   peakAmplitude (scanValue v i s) = v /\ peakIndex (scanValue v i s) = i)
  \/
  (v <= peakAmplitude s /\
   peakAmplitude (scanValue v i s) = peakAmplitude s /\
   peakIndex (scanValue v i s) = peakIndex s).
Proof.
  unfold scanValue. destruct (Z.ltb_spec (peakAmplitude s) v); [left | right];
    repeat split; assumption.
Qed.

(** The peak after the loop: either nothing exceeded the peak the loop was
    entered with, or the peak is a value of the band and the index is that
    of its first occurrence. *)
Lemma scanList_peak (l : list Z) :
  forall (i : Z) (s : Scan),
    let s' := scanList l i s in
    (peakAmplitude s' = peakAmplitude s /\ peakIndex s' = peakIndex s /\
     Forall (fun v => v <= peakAmplitude s) l)
    \/
    (peakAmplitude s < peakAmplitude s' /\
     Forall (fun v => v <= peakAmplitude s') l /\
     exists k : nat,
       (k < List.length l)%nat /\
       peakIndex s' = i + Z.of_nat k /\
       nth_error l k = Some (peakAmplitude s') /\
       forall (j : nat) (v : Z),
         (j < k)%nat -> nth_error l j = Some v -> v < peakAmplitude s').
Proof.
  induction l as [| v l IH]; intros i s; cbn zeta.
  - left. simpl. repeat split. constructor.
  - simpl scanList.
    specialize (IH (i + 1) (scanValue v i s)). cbn zeta in IH.
    remember (scanList l (i + 1) (scanValue v i s)) as s' eqn:Hs'.
    destruct (scanValue_peak v i s) as [(Hgt & Hp1 & Hi1) | (Hle & Hp1 & Hi1)];
      rewrite Hp1, ?Hi1 in IH.
    + right. destruct IH as [(Hp & Hi & Hall) | (Hp & Hall & k & Hk & Hi & Hn & Hfirst)].
      * rewrite Hp. split; [exact Hgt |]. split.
        { constructor; [lia | exact Hall]. }
        exists 0%nat. simpl. repeat split; lia.
      * split; [lia |]. split.
        { constructor; [lia | exact Hall]. }
        exists (S k). simpl. repeat split; try lia; try exact Hn.
        intros [| j] w Hj Hw; simpl in Hw.
        { injection Hw as <-. lia. }
        { apply (Hfirst j w); [lia | exact Hw]. }
    + destruct IH as [(Hp & Hi & Hall) | (Hp & Hall & k & Hk & Hi & Hn & Hfirst)].
      * left. repeat split; try assumption. constructor; assumption.
      * right. split; [exact Hp |]. split.
        { constructor; [lia | exact Hall]. }
        exists (S k). simpl. repeat split; try lia; try exact Hn.
        intros [| j] w Hj Hw; simpl in Hw.
        { injection Hw as <-. lia. }
        { apply (Hfirst j w); [lia | exact Hw]. }
Qed.

(** The total after the loop is the total before plus the sum of the band. *)
Lemma scanList_total (l : list Z) :
  forall (i : Z) (s : Scan) (q : Q),
    totalAmplitude s = Fin q ->
    exists q', totalAmplitude (scanList l i s) = Fin q' /\
               (q' == q + inject_Z (sumZ l))%Q.
Proof.
  induction l as [| v l IH]; intros i s q Hq; simpl.
  - exists q. split; [exact Hq |]. unfold inject_Z. ring.
  - destruct (IH (i + 1) (scanValue v i s) (q + inject_Z v)%Q) as (q' & Ht & Heq).
    { unfold scanValue. destruct (peakAmplitude s <? v); simpl; rewrite Hq; reflexivity. }
    exists q'. split; [exact Ht |].
    rewrite Heq, inject_Z_plus. ring.
Qed.

Lemma isUint8Array_In (d : Frame) (v : Z) :
  isUint8Array d = true -> In v d -> 0 <= v < 256.
Proof.
  unfold isUint8Array. rewrite forallb_forall. intros H Hin.
  specialize (H v Hin). apply andb_true_iff in H. lia.
Qed.


(** On a band inside the frame the total is the sum of the band. *)
Lemma scanBand_total_is_sum (d : Frame) (lo hi : Z) :
  0 <= lo -> hi <= Z.of_nat (List.length d) ->
  exists q, totalAmplitude (scanBand d lo hi) = Fin q /\
            (q == inject_Z (sumZ (bandOf d lo hi)))%Q.
Proof.
  intros Hlo Hhi. rewrite (scanBand_scanList d lo hi Hlo Hhi).
  destruct (scanList_total (bandOf d lo hi) lo scanInit 0%Q eq_refl)
    as (q & Ht & Heq).
  exists q. split; [exact Ht |]. rewrite Heq. ring.
Qed.

(** The average is the arithmetic mean of the band. *)
Lemma averageAmplitude_is_mean (d : Frame) (lo hi : Z) :
  0 <= lo -> lo < hi -> hi <= Z.of_nat (List.length d) ->
  exists avg,
    averageAmplitude (scanBand d lo hi) lo hi = Fin avg /\
    (avg == inject_Z (sumZ (bandOf d lo hi))
            / inject_Z (Z.of_nat (List.length (bandOf d lo hi))))%Q.
Proof.
  intros Hlo Hlt Hhi.
  destruct (scanBand_total_is_sum d lo hi Hlo Hhi) as (q & Ht & Heq).
  exists (q / inject_Z (hi - lo))%Q. split.
  - unfold averageAmplitude. rewrite Ht. apply numDiv_Fin_nonzero. lia.
  - rewrite (bandOf_length d lo hi Hlo Hhi), Z2Nat.id by lia.
    rewrite Heq. reflexivity.
Qed.

(** The outcome of [evaluateBand] in terms of the condition on line 100. *)
Lemma evaluateBand_cases (d : Frame) (lo hi : Z) (width absT relT : Q) :
  (thumpCondition (scanBand d lo hi) lo hi absT relT = true /\
   evaluateBand d lo hi width absT relT
     = Some (inject_Z (peakIndex (scanBand d lo hi)) * width)%Q)
  \/
  (thumpCondition (scanBand d lo hi) lo hi absT relT = false /\
   evaluateBand d lo hi width absT relT = None).
Proof.
  unfold evaluateBand. cbv zeta.
  destruct (thumpCondition (scanBand d lo hi) lo hi absT relT); [left | right];
    split; reflexivity.
Qed.

(** With a finite average, the condition is the pair of strict comparisons. *)
Lemma thumpCondition_finite (s : Scan) (lo hi : Z) (absT relT avg : Q) :
  averageAmplitude s lo hi = Fin avg ->
  thumpCondition s lo hi absT relT = true <->
  (absT < inject_Z (peakAmplitude s) /\ avg + relT < inject_Z (peakAmplitude s))%Q.
Proof.
  intros Havg. unfold thumpCondition. rewrite Havg. simpl numAdd. unfold ofZ.
  rewrite andb_true_iff, !numGt_Fin. reflexivity.
Qed.

(** An empty band never satisfies the condition: its average is [0 / 0]. *)
Lemma thumpCondition_empty_band (d : Frame) (lo : Z) (absT relT : Q) :
  thumpCondition (scanBand d lo lo) lo lo absT relT = false.
Proof.
  unfold thumpCondition, averageAmplitude, scanBand.
  rewrite Z.sub_diag. simpl. apply andb_false_r.
Qed.

Lemma stopListening_idle (st : State) : isListening (stopListening st) = false.
Proof. unfold stopListening. destruct (animationFrameId st); reflexivity. Qed.

(** *** The detection rule *)





(** *** The degenerate band *)

(** C7.  When the band is degenerate, [minIndex >= maxIndex], no frame and no
    pair of thresholds makes the detector emit an event: with a positive
    sample rate the two indices are then equal, the loop does not run and
    the average is [0 / 0]. *)
Theorem degenerate_band_never_detects
    (d : Frame) (rate : Q) (size : positive) (absT relT : Q)
    (Hrate : (0 < rate)%Q)
    (Hdegenerate : maxIndex rate size <= minIndex rate size) :
  evaluate d rate size absT relT = None.
Proof.
  assert (Hle := minIndex_le_maxIndex rate size Hrate).
  assert (Heq : maxIndex rate size = minIndex rate size) by lia.
  unfold evaluate. rewrite Heq.
  destruct (evaluateBand_cases d (minIndex rate size) (minIndex rate size)
              (binWidth rate size) absT relT) as [[Ht _] | [_ He]].
  - rewrite thumpCondition_empty_band in Ht. discriminate.
  - exact He.
Qed.

Lemma degenerate_band_never_detects_witness :
  (0 < 16384000)%Q /\
  maxIndex 16384000 16384 <= minIndex 16384000 16384 /\
  evaluate loudFrame 16384000 16384 (absoluteThreshold 20) (relativeThreshold 20)
    = None.
Proof.
  assert (Hr : (0 < 16384000)%Q) by reflexivity.
  assert (Hd : maxIndex 16384000 16384 <= minIndex 16384000 16384)
    by (vm_compute; discriminate).
  split; [exact Hr |]. split; [exact Hd |].
  apply (degenerate_band_never_detects loudFrame 16384000 16384 _ _ Hr Hd).
Defined.

(** *** The peak index *)




End Detector.

(** ** ThumpDetector: edge behaviour of the detection rule *)

Section DetectorEdges.
Local Open Scope Z_scope.

Lemma numGt_Fin_weaken (p a1 a2 : Q) :
  (a2 <= a1)%Q -> numGt (Fin p) (Fin a1) = true -> numGt (Fin p) (Fin a2) = true.
Proof. rewrite !numGt_Fin. intros H1 H2. lra. Qed.

Lemma numGt_add_weaken (p : Q) (x : number) (r1 r2 : Q) :
  (r2 <= r1)%Q ->
  numGt (Fin p) (numAdd x (Fin r1)) = true ->
  numGt (Fin p) (numAdd x (Fin r2)) = true.
Proof.
  intros Hr. destruct x as [| | a |]; simpl; try (intros H; exact H).
  intros H. apply negb_true_iff in H. apply negb_true_iff.
  apply not_true_iff_false. apply not_true_iff_false in H.
  rewrite Qle_bool_iff in *. lra.
Qed.

(** Lowering either threshold keeps a declared thump declared. *)
Lemma thumpCondition_weaken (s : Scan) (lo hi : Z) (a1 r1 a2 r2 : Q) :
  (a2 <= a1)%Q -> (r2 <= r1)%Q ->
  thumpCondition s lo hi a1 r1 = true -> thumpCondition s lo hi a2 r2 = true.
Proof.
  intros Ha Hr. unfold thumpCondition. rewrite !andb_true_iff. intros [H1 H2].
  split.
  - apply (numGt_Fin_weaken _ a1); assumption.
  - apply (numGt_add_weaken _ _ r1); assumption.
Qed.

(** X2.  Raising the sensitivity never loses a detection: a frame that
    triggers at one sensitivity triggers, with the same base frequency, at
    every higher one. *)
Theorem detection_monotone_in_sensitivity
    (d : Frame) (rate : Q) (size : positive) (s1 s2 f : Q)
    (Hs : (s1 <= s2)%Q)
    (Hdet : evaluate d rate size (absoluteThreshold s1) (relativeThreshold s1)
            = Some f) :
  evaluate d rate size (absoluteThreshold s2) (relativeThreshold s2) = Some f.
Proof.
  unfold evaluate, evaluateBand in *. cbv zeta in *.
  destruct (thumpCondition _ _ _ (absoluteThreshold s1) _) eqn:H1;
    [| discriminate].
  rewrite (thumpCondition_weaken _ _ _ _ _ (absoluteThreshold s2)
             (relativeThreshold s2)) with (3 := H1).
  - exact Hdet.
  - unfold absoluteThreshold. lra.
  - unfold relativeThreshold. lra.
Qed.

Lemma detection_monotone_in_sensitivity_witness :
  (8 <= 12)%Q /\
  evaluate tapFrame 48000 16384 (absoluteThreshold 12) (relativeThreshold 12)
    = Some (1680000 # 16384).
Proof.
  assert (Hs : (8 <= 12)%Q) by (vm_compute; discriminate).
  split; [exact Hs |].
  apply (detection_monotone_in_sensitivity tapFrame 48000 16384 8 12 _ Hs).
  vm_compute. reflexivity.
Defined.

(** An event needs a band that is not empty and lies inside the frame. *)
Lemma evaluate_some_valid_band
    (d : Frame) (rate : Q) (size : positive) (absT relT f : Q) :
  (0 < rate)%Q ->
  evaluate d rate size absT relT = Some f ->
  minIndex rate size < maxIndex rate size <= Z.of_nat (List.length d).
Proof.
  intros Hrate He.
  assert (Hle := minIndex_le_maxIndex rate size Hrate).
  assert (Hlo := minIndex_nonneg rate size Hrate).
  unfold evaluate in He.
  destruct (Z.eq_dec (minIndex rate size) (maxIndex rate size)) as [Heq | Hne].
  - rewrite <- Heq in He.
    destruct (evaluateBand_cases d (minIndex rate size) (minIndex rate size)
                (binWidth rate size) absT relT) as [[Ht _] | [_ Hn]].
    + rewrite thumpCondition_empty_band in Ht. discriminate.
    + congruence.
  - split; [lia |].
    destruct (Z.le_gt_cases (maxIndex rate size) (Z.of_nat (List.length d)))
      as [Hin | Hout]; [exact Hin |].
    rewrite (evaluateBand_outside_frame d _ _ (maxIndex rate size - 1)) in He.
    + discriminate.
    + lia.
    + rewrite readBin_nat by lia. apply nth_error_None. lia.
Qed.

(** X3.  Whatever the thresholds, a frame whose band is empty or reaches
    past the end of the frame never produces an event; an emitted event
    therefore comes from a non-empty band inside the frame, and its
    frequency is the width of a bin times the loop's peak index. *)
Theorem event_requires_band_inside_frame
    (d : Frame) (rate : Q) (size : positive) (absT relT : Q)
    (Hrate : (0 < rate)%Q) :
  (maxIndex rate size <= minIndex rate size \/
   Z.of_nat (List.length d) < maxIndex rate size ->
   evaluate d rate size absT relT = None) /\
  (forall f, evaluate d rate size absT relT = Some f ->
     minIndex rate size < maxIndex rate size <= Z.of_nat (List.length d) /\
     f = (inject_Z (peakIndex (scanBand d (minIndex rate size)
                                 (maxIndex rate size)))
          * binWidth rate size)%Q).
Proof.
  split.
  - intros Hbad.
    destruct (evaluate d rate size absT relT) as [f |] eqn:He; [| reflexivity].
    apply evaluate_some_valid_band in He; [lia | exact Hrate].
  - intros f He. split; [apply (evaluate_some_valid_band _ _ _ _ _ _ Hrate He) |].
    unfold evaluate in He.
    destruct (evaluateBand_cases d (minIndex rate size) (maxIndex rate size)
                (binWidth rate size) absT relT) as [[_ Hs] | [_ Hn]];
      congruence.
Qed.

Lemma event_requires_band_inside_frame_witness :
  (0 < 48000)%Q /\
  evaluate (firstn 100 loudFrame) 48000 16384
    (absoluteThreshold 20) (relativeThreshold 20) = None.
Proof.
  assert (Hr : (0 < 48000)%Q) by reflexivity.
  split; [exact Hr |].
  apply (event_requires_band_inside_frame (firstn 100 loudFrame) 48000 16384
           _ _ Hr).
  right. vm_compute. reflexivity.
Defined.

(** The two ways the loop can end on a band inside the frame. *)
Lemma scanBand_outcome (d : Frame) (lo hi : Z) :
  0 <= lo -> hi <= Z.of_nat (List.length d) ->
  (peakAmplitude (scanBand d lo hi) = 0 /\ peakIndex (scanBand d lo hi) = 0 /\
   Forall (fun v => v <= 0) (bandOf d lo hi))
  \/
  (0 < peakAmplitude (scanBand d lo hi) /\
   lo <= peakIndex (scanBand d lo hi) < hi /\
   In (peakAmplitude (scanBand d lo hi)) (bandOf d lo hi) /\
   Forall (fun v => v <= peakAmplitude (scanBand d lo hi)) (bandOf d lo hi)).
Proof.
  intros Hlo Hhi. rewrite (scanBand_scanList d lo hi Hlo Hhi).
  assert (Hlen := bandOf_length d lo hi Hlo Hhi).
  destruct (scanList_peak (bandOf d lo hi) lo scanInit)
    as [(Hp & Hi & Hall) | (Hp & Hall & k & Hk & Hi & Hn & _)].
  - left. repeat split; assumption.
  - right. simpl in Hp. split; [exact Hp |]. split; [lia |].
    split; [apply (nth_error_In _ _ Hn) | exact Hall].
Qed.

Lemma sumZ_constant (l : list Z) (v : Z) :
  Forall (fun x => x = v) l -> sumZ l = Z.of_nat (List.length l) * v.
Proof.
  induction 1 as [| x l Hx _ IH]; [reflexivity |].
  simpl sumZ. simpl List.length. rewrite IH, Hx. lia.
Qed.

(** The mean of a band whose bins all hold [v] is [v]. *)
Lemma averageAmplitude_constant (d : Frame) (lo hi v : Z) :
  0 <= lo -> lo < hi -> hi <= Z.of_nat (List.length d) ->
  Forall (fun x => x = v) (bandOf d lo hi) ->
  exists avg, averageAmplitude (scanBand d lo hi) lo hi = Fin avg /\
              (avg == inject_Z v)%Q.
Proof.
  intros Hlo Hlt Hhi Hall.
  destruct (averageAmplitude_is_mean d lo hi Hlo Hlt Hhi) as (avg & Havg & Hmean).
  exists avg. split; [exact Havg |].
  rewrite Hmean, (sumZ_constant _ v Hall), inject_Z_mult.
  assert (Hlen := bandOf_length d lo hi Hlo Hhi).
  assert (Hn : ~ (inject_Z (Z.of_nat (List.length (bandOf d lo hi))) == 0)%Q).
  { rewrite Hlen, Z2Nat.id by lia. unfold Qeq. simpl. lia. }
  field. exact Hn.
Qed.

(** The peak of a band whose bins all hold the byte [v] is [v]. *)
Lemma peakAmplitude_constant (d : Frame) (lo hi v : Z) :
  0 <= lo -> lo < hi -> hi <= Z.of_nat (List.length d) -> 0 <= v ->
  Forall (fun x => x = v) (bandOf d lo hi) ->
  peakAmplitude (scanBand d lo hi) = v /\
  (v = 0 -> peakIndex (scanBand d lo hi) = 0).
Proof.
  intros Hlo Hlt Hhi Hv Hall.
  assert (Hlen := bandOf_length d lo hi Hlo Hhi).
  rewrite Forall_forall in Hall.
  destruct (scanBand_outcome d lo hi Hlo Hhi)
    as [(Hp & Hi & Hle) | (Hp & _ & Hin & _)].
  - destruct (bandOf d lo hi) as [| x l] eqn:Hband; [simpl in Hlen; lia |].
    inversion Hle; subst. specialize (Hall x (or_introl eq_refl)).
    split; [lia | intros _; exact Hi].
  - specialize (Hall _ Hin). split; [exact Hall | lia].
Qed.

(** Silence: the outcome on a band whose bins are all 0. *)
Lemma evaluate_silent_band
    (d : Frame) (rate : Q) (size : positive) (s : Q)
    (Hrate : (0 < rate)%Q)
    (Hband : minIndex rate size < maxIndex rate size)
    (Hframe : maxIndex rate size <= Z.of_nat (List.length d))
    (Hsilent : Forall (fun v => v = 0)
                 (bandOf d (minIndex rate size) (maxIndex rate size))) :
  ((16 < s)%Q ->
   evaluate d rate size (absoluteThreshold s) (relativeThreshold s)
     = Some (inject_Z 0 * binWidth rate size)%Q) /\
  ((s <= 16)%Q ->
   evaluate d rate size (absoluteThreshold s) (relativeThreshold s) = None).
Proof.
  assert (Hlo := minIndex_nonneg rate size Hrate).
  destruct (peakAmplitude_constant d _ _ 0 Hlo Hband Hframe (Z.le_refl 0) Hsilent)
    as [Hp Hi]. specialize (Hi eq_refl).
  destruct (averageAmplitude_constant d _ _ 0 Hlo Hband Hframe Hsilent)
    as (avg & Havg & Hzero).
  assert (Hcond := thumpCondition_finite _ _ _ (absoluteThreshold s)
                     (relativeThreshold s) avg Havg).
  rewrite Hp, Hzero in Hcond. unfold absoluteThreshold, relativeThreshold in Hcond.
  unfold evaluate.
  destruct (evaluateBand_cases d (minIndex rate size) (maxIndex rate size)
              (binWidth rate size) (absoluteThreshold s) (relativeThreshold s))
    as [[Ht He] | [Ht He]]; rewrite He.
  - apply Hcond in Ht. unfold inject_Z in Ht.
    split; [intros _; rewrite Hi; reflexivity | intros Hs; exfalso; lra].
  - split; [| reflexivity].
    intros Hs. assert (Htrue : thumpCondition
                (scanBand d (minIndex rate size) (maxIndex rate size))
                (minIndex rate size) (maxIndex rate size)
                (absoluteThreshold s) (relativeThreshold s) = true).
    { apply Hcond. unfold inject_Z. split; lra. }
    congruence.
Qed.

(** X4.  Silence triggers the detector exactly when the sensitivity exceeds
    16: on a non-empty band inside the frame whose bins are all 0, an event
    is emitted if and only if [16 < sensitivity], and its base frequency is
    then that of bin 0. *)
Theorem silence_detected_iff_sensitivity_above_16
    (d : Frame) (rate : Q) (size : positive) (s : Q)
    (Hrate : (0 < rate)%Q)
    (Hband : minIndex rate size < maxIndex rate size)
    (Hframe : maxIndex rate size <= Z.of_nat (List.length d))
    (Hsilent : Forall (fun v => v = 0)
                 (bandOf d (minIndex rate size) (maxIndex rate size))) :
  ((16 < s)%Q ->
   evaluate d rate size (absoluteThreshold s) (relativeThreshold s)
     = Some (inject_Z 0 * binWidth rate size)%Q) /\
  ((s <= 16)%Q ->
   evaluate d rate size (absoluteThreshold s) (relativeThreshold s) = None).
Proof.
  exact (evaluate_silent_band d rate size s Hrate Hband Hframe Hsilent).
Qed.

Lemma silence_detected_iff_sensitivity_above_16_witness :
  (0 < 48000)%Q /\
  evaluate silentFrame 48000 16384 (absoluteThreshold 16) (relativeThreshold 16)
    = None /\
  evaluate silentFrame 48000 16384
    (absoluteThreshold (33 # 2)) (relativeThreshold (33 # 2))
    = Some (inject_Z 0 * binWidth 48000 16384)%Q.
Proof.
  assert (Hr : (0 < 48000)%Q) by reflexivity.
  assert (Hb : minIndex 48000 16384 < maxIndex 48000 16384)
    by (vm_compute; reflexivity).
  assert (Hf : maxIndex 48000 16384 <= Z.of_nat (List.length silentFrame))
    by (vm_compute; discriminate).
  assert (Hs : Forall (fun v => v = 0)
                 (bandOf silentFrame (minIndex 48000 16384) (maxIndex 48000 16384))).
  { apply Forall_forall. intros v Hv. apply bandOf_incl in Hv.
    apply (repeat_spec _ _ _ Hv). }
  split; [exact Hr |]. split.
  - apply (silence_detected_iff_sensitivity_above_16 silentFrame 48000 16384 16
             Hr Hb Hf Hs). lra.
  - apply (silence_detected_iff_sensitivity_above_16 silentFrame 48000 16384
             (33 # 2) Hr Hb Hf Hs). lra.
Defined.

(** X5.  A flat spectrum is rejected: when every bin of the band holds the
    same byte and the relative threshold is not negative (sensitivity at
    most 15), no event is emitted, however loud the frame is. *)
Theorem flat_band_never_detects
    (d : Frame) (rate : Q) (size : positive) (v : Z) (absT relT : Q)
    (Hrate : (0 < rate)%Q)
    (Hframe : maxIndex rate size <= Z.of_nat (List.length d))
    (Hv : 0 <= v)
    (Hflat : Forall (fun x => x = v)
               (bandOf d (minIndex rate size) (maxIndex rate size)))
    (Hrel : (0 <= relT)%Q) :
  evaluate d rate size absT relT = None.
Proof.
  assert (Hlo := minIndex_nonneg rate size Hrate).
  destruct (evaluate d rate size absT relT) as [f |] eqn:He; [| reflexivity].
  destruct (evaluate_some_valid_band d rate size absT relT f Hrate He)
    as [Hband _].
  destruct (peakAmplitude_constant d _ _ v Hlo Hband Hframe Hv Hflat) as [Hp _].
  destruct (averageAmplitude_constant d _ _ v Hlo Hband Hframe Hflat)
    as (avg & Havg & Havgv).
  assert (Hcond := thumpCondition_finite _ _ _ absT relT avg Havg).
  rewrite Hp, Havgv in Hcond.
  unfold evaluate in He.
  destruct (evaluateBand_cases d (minIndex rate size) (maxIndex rate size)
              (binWidth rate size) absT relT) as [[Ht _] | [_ Hn]];
    [| congruence].
  apply Hcond in Ht. exfalso. lra.
Qed.

Lemma flat_band_never_detects_witness :
  (0 < 48000)%Q /\
  evaluate loudFrame 48000 16384 (absoluteThreshold 15) (relativeThreshold 15)
    = None.
Proof.
  assert (Hr : (0 < 48000)%Q) by reflexivity.
  split; [exact Hr |].
  apply (flat_band_never_detects loudFrame 48000 16384 255 _ _ Hr).
  - vm_compute. discriminate.
  - lia.
  - apply Forall_forall. intros v Hv. apply bandOf_incl in Hv.
    apply (repeat_spec _ _ _ Hv).
  - vm_compute. discriminate.
Defined.

(** X6.  A quiet frame is rejected: with an absolute threshold that is not
    negative (sensitivity at most 16), a frame none of whose band bins
    exceeds the absolute threshold produces no event. *)
Theorem quiet_band_never_detects
    (d : Frame) (rate : Q) (size : positive) (absT relT : Q)
    (Hrate : (0 < rate)%Q)
    (Habs : (0 <= absT)%Q)
    (Hquiet : Forall (fun v => (inject_Z v <= absT)%Q)
                (bandOf d (minIndex rate size) (maxIndex rate size))) :
  evaluate d rate size absT relT = None.
Proof.
  assert (Hlo := minIndex_nonneg rate size Hrate).
  destruct (evaluate d rate size absT relT) as [f |] eqn:He; [| reflexivity].
  destruct (evaluate_some_valid_band d rate size absT relT f Hrate He)
    as [Hband Hframe].
  destruct (averageAmplitude_is_mean d _ _ Hlo Hband Hframe) as (avg & Havg & _).
  assert (Hcond := thumpCondition_finite _ _ _ absT relT avg Havg).
  unfold evaluate in He.
  destruct (evaluateBand_cases d (minIndex rate size) (maxIndex rate size)
              (binWidth rate size) absT relT) as [[Ht _] | [_ Hn]];
    [| congruence].
  apply Hcond in Ht. destruct Ht as [Ht _]. exfalso.
  destruct (scanBand_outcome d _ _ Hlo Hframe)
    as [(Hp & _ & _) | (_ & _ & Hin & _)].
  - rewrite Hp in Ht. unfold inject_Z in Ht. lra.
  - rewrite Forall_forall in Hquiet. specialize (Hquiet _ Hin). lra.
Qed.

Lemma quiet_band_never_detects_witness :
  (0 < 48000)%Q /\
  evaluate tapFrame 48000 16384 200 (relativeThreshold 20) = None.
Proof.
  assert (Hr : (0 < 48000)%Q) by reflexivity.
  split; [exact Hr |].
  apply (quiet_band_never_detects tapFrame 48000 16384 200 _ Hr).
  - vm_compute. discriminate.
  - apply Forall_forall. intros v Hv. apply bandOf_incl in Hv.
    unfold tapFrame in Hv. rewrite !in_app_iff in Hv.
    assert (Hcase : v = 0 \/ v = 10 \/ v = 200 \/ v = 30).
    { destruct Hv as [Hv | [Hv | Hv]].
      - left. apply (repeat_spec _ _ _ Hv).
      - simpl in Hv. intuition.
      - left. apply (repeat_spec _ _ _ Hv). }
    destruct Hcase as [-> | [-> | [-> | ->]]]; vm_compute; discriminate.
Defined.

Lemma binWidth_mult (rate : Q) (size : positive) (x : Q) :
  (0 < rate)%Q -> (x / binWidth rate size * binWidth rate size == x)%Q.
Proof.
  intros H. assert (Hw := binWidth_pos rate size H). field. lra.
Qed.

(** X7.  With a positive sample rate and an absolute threshold that is not
    negative, every emitted base frequency lies within half a bin of the
    100-300 Hz band: it is above [100 - w / 2] and at most [300 - w / 2],
    where [w] is the width of a bin. *)
Theorem emitted_frequency_within_band
    (d : Frame) (rate : Q) (size : positive) (absT relT f : Q)
    (Hrate : (0 < rate)%Q)
    (Habs : (0 <= absT)%Q)
    (Hdet : evaluate d rate size absT relT = Some f) :
  (100 - binWidth rate size / 2 < f /\ f <= 300 - binWidth rate size / 2)%Q.
Proof.
  assert (Hlo := minIndex_nonneg rate size Hrate).
  assert (Hw := binWidth_pos rate size Hrate).
  destruct (evaluate_some_valid_band d rate size absT relT f Hrate Hdet)
    as [Hband Hframe].
  destruct (averageAmplitude_is_mean d _ _ Hlo Hband Hframe) as (avg & Havg & _).
  assert (Hcond := thumpCondition_finite _ _ _ absT relT avg Havg).
  unfold evaluate in Hdet.
  destruct (evaluateBand_cases d (minIndex rate size) (maxIndex rate size)
              (binWidth rate size) absT relT) as [[Ht He] | [_ Hn]];
    [| congruence].
  rewrite He in Hdet. injection Hdet as <-.
  apply Hcond in Ht. destruct Ht as [Ht _].
  destruct (scanBand_outcome d _ _ Hlo Hframe)
    as [(Hp & _ & _) | (_ & Hidx & _ & _)].
  { rewrite Hp in Ht. unfold inject_Z in Ht. exfalso. lra. }
  set (idx := peakIndex (scanBand d (minIndex rate size) (maxIndex rate size)))
    in *.
  assert (Hmin : (relevantFreqMin / binWidth rate size + (1 # 2)
                  < inject_Z (minIndex rate size) + 1)%Q).
  { unfold minIndex, mathRound. rewrite <- (inject_Z_plus _ 1). apply Qlt_floor. }
  assert (Hmax : (inject_Z (maxIndex rate size)
                  <= relevantFreqMax / binWidth rate size + (1 # 2))%Q).
  { unfold maxIndex, mathRound. apply Qfloor_le. }
  assert (H1 : (inject_Z (minIndex rate size) <= inject_Z idx)%Q)
    by (rewrite <- Zle_Qle; lia).
  assert (H2 : (inject_Z idx + 1 <= inject_Z (maxIndex rate size))%Q).
  { rewrite <- (inject_Z_plus _ 1), <- Zle_Qle. lia. }
  assert (Ea := binWidth_mult rate size relevantFreqMin Hrate).
  assert (Eb := binWidth_mult rate size relevantFreqMax Hrate).
  unfold relevantFreqMin in *. unfold relevantFreqMax in *.
  set (a := (100 / binWidth rate size)%Q) in *.
  set (b := (300 / binWidth rate size)%Q) in *.
  set (w := binWidth rate size) in *.
  split.
  - assert (H : ((a - (1 # 2)) * w < inject_Z idx * w)%Q).
    { apply Qmult_lt_compat_r; [exact Hw | lra]. }
    assert (E : ((a - (1 # 2)) * w == 100 - w / 2)%Q)
      by (rewrite <- Ea; field).
    rewrite <- E. exact H.
  - assert (H : (inject_Z idx * w <= (b - (1 # 2)) * w)%Q).
    { apply Qmult_le_compat_r; [lra | lra]. }
    assert (E : ((b - (1 # 2)) * w == 300 - w / 2)%Q)
      by (rewrite <- Eb; field).
    rewrite <- E. exact H.
Qed.

Lemma emitted_frequency_within_band_witness :
  (0 < 48000)%Q /\
  (100 - binWidth 48000 16384 / 2 < 1680000 # 16384 /\
   1680000 # 16384 <= 300 - binWidth 48000 16384 / 2)%Q.
Proof.
  assert (Hr : (0 < 48000)%Q) by reflexivity.
  split; [exact Hr |].
  apply (emitted_frequency_within_band tapFrame 48000 16384
           (absoluteThreshold 8) (relativeThreshold 8) _ Hr).
  - vm_compute. discriminate.
  - vm_compute. reflexivity.
Defined.

Lemma mathRound_half_integer (h : Z) : Qfloor (inject_Z h + (1 # 2)) = h.
Proof.
  assert (Hle := Qfloor_le (inject_Z h + (1 # 2))).
  assert (Hlt := Qlt_floor (inject_Z h + (1 # 2))).
  set (z := Qfloor (inject_Z h + (1 # 2))) in *.
  unfold Qle, Qlt, Qplus, inject_Z in Hle, Hlt. simpl in Hle, Hlt. lia.
Qed.

Lemma frequencyBinCount_half (size : positive) :
  Z.of_nat (frequencyBinCount size) = Z.pos size / 2.
Proof.
  unfold frequencyBinCount. apply Z2Nat.id. apply Z.div_pos; lia.
Qed.

(** X8.  For an analyser of even FFT size and a sample rate between 600 Hz
    and 200 Hz per FFT point, the band is well formed: [minIndex] is not
    negative, the band is not empty and it ends inside a frame of
    [frequencyBinCount] bins.  (For the 16384-point analyser of the page this
    covers every rate from 600 Hz to 3.2768 MHz.) *)
Theorem band_well_formed_for_usual_rates
    (rate : Q) (size : positive)
    (Hlow : (600 <= rate)%Q)
    (Hhigh : (rate <= 200 * inject_Z (Z.pos size))%Q)
    (Heven : Z.even (Z.pos size) = true) :
  0 <= minIndex rate size /\
  minIndex rate size < maxIndex rate size /\
  maxIndex rate size <= Z.of_nat (frequencyBinCount size).
Proof.
  assert (Hrate : (0 < rate)%Q) by lra.
  assert (Hw := binWidth_pos rate size Hrate).
  assert (HS : (0 < inject_Z (Z.pos size))%Q) by reflexivity.
  assert (Ew : (binWidth rate size * inject_Z (Z.pos size) == rate)%Q).
  { unfold binWidth. field. lra. }
  assert (Hw200 : (binWidth rate size <= 200)%Q).
  { unfold binWidth. apply Qle_shift_div_r; [exact HS | exact Hhigh]. }
  split; [apply minIndex_nonneg; exact Hrate |]. split.
  - assert (Hstep : (relevantFreqMin / binWidth rate size + 1
                     <= relevantFreqMax / binWidth rate size)%Q).
    { assert (E : (relevantFreqMax / binWidth rate size
                   == relevantFreqMin / binWidth rate size
                      + 200 / binWidth rate size)%Q).
      { unfold relevantFreqMin, relevantFreqMax. field. lra. }
      assert (H1 : (1 <= 200 / binWidth rate size)%Q).
      { apply Qle_shift_div_l; [exact Hw | lra]. }
      rewrite E. lra. }
    assert (Hfl := Qfloor_le (relevantFreqMin / binWidth rate size + (1 # 2))).
    fold (mathRound (relevantFreqMin / binWidth rate size)) in Hfl.
    fold (minIndex rate size) in Hfl.
    assert (Hmono : Qfloor (inject_Z (minIndex rate size + 1))
                    <= maxIndex rate size).
    { unfold maxIndex, mathRound. apply Qfloor_resp_le.
      rewrite inject_Z_plus. change (inject_Z 1) with 1%Q. lra. }
    rewrite Qfloor_Z in Hmono. lia.
  - rewrite frequencyBinCount_half.
    apply Z.even_spec in Heven. destruct Heven as [h Hh].
    rewrite Hh, Z.mul_comm, Z.div_mul by lia.
    rewrite <- (mathRound_half_integer h).
    unfold maxIndex, mathRound. apply Qfloor_resp_le.
    assert (Hb : (relevantFreqMax / binWidth rate size <= inject_Z h)%Q).
    { apply Qle_shift_div_r; [exact Hw |].
      assert (E : (inject_Z h * binWidth rate size
                   == binWidth rate size * inject_Z (Z.pos size) * (1 # 2))%Q).
      { rewrite Hh, inject_Z_mult. change (inject_Z 2) with 2%Q. field. }
      rewrite E, Ew. unfold relevantFreqMax. lra. }
    lra.
Qed.

Lemma band_well_formed_for_usual_rates_witness :
  (600 <= 44100)%Q /\
  minIndex 44100 16384 < maxIndex 44100 16384 /\
  maxIndex 44100 16384 <= Z.of_nat (frequencyBinCount 16384).
Proof.
  assert (Hl : (600 <= 44100)%Q) by (vm_compute; discriminate).
  split; [exact Hl |].
  apply (band_well_formed_for_usual_rates 44100 16384 Hl).
  - vm_compute. discriminate.
  - reflexivity.
Defined.

End DetectorEdges.

Section ThresholdRanges.
Local Open Scope Q_scope.

(** X1.  The ranges written beside the two thresholds in the source, 150
    down to 60 and 42 down to 15, are those of sensitivities 1 to 10.  Over
    the slider's range 1 to 20 the thresholds go down to -40 and -15: the
    absolute threshold is positive exactly below sensitivity 16 and the
    relative threshold exactly below 15. *)
Theorem threshold_ranges :
  (forall s, 1 <= s -> s <= 10 ->
     60 <= absoluteThreshold s <= 150 /\ 15 <= relativeThreshold s <= 42) /\
  (forall s, 1 <= s -> s <= 20 ->
     -40 <= absoluteThreshold s <= 150 /\ -15 <= relativeThreshold s <= 42) /\
  (forall s, 0 < absoluteThreshold s <-> s < 16) /\
  (forall s, 0 < relativeThreshold s <-> s < 15).
Proof.
  unfold absoluteThreshold, relativeThreshold.
  repeat split; intros; lra.
Qed.

Lemma threshold_ranges_witness :
  absoluteThreshold 10 == 60 /\ relativeThreshold 10 == 15 /\
  -40 <= absoluteThreshold 20 /\ -15 <= relativeThreshold 20.
Proof.
  destruct threshold_ranges as (_ & H20 & _ & _).
  destruct (H20 20) as [[Ha _] [Hr _]]; [lra | lra |].
  split; [reflexivity |]. split; [reflexivity |]. split; assumption.
Defined.

End ThresholdRanges.

(** ** RipenessModel: what the stored result looks like *)

Section RipenessEdges.
Local Open Scope R_scope.

Lemma ripenessIndexOf_nonneg (f m : R) : 0 <= ripenessIndexOf f m.
Proof.
  unfold ripenessIndexOf. apply Rmult_le_pos.
  - apply pow2_ge_0.
  - left. apply Rpower_two_thirds_pos.
Qed.

Lemma scoreOf_cases (ri : R) :
  (ri <= 60000 /\ scoreOf ri = 100) \/
  (60000 < ri < 95000 /\ scoreOf ri = 100 * (95000 - ri) / 35000) \/
  (95000 <= ri /\ scoreOf ri = 0).
Proof.
  rewrite scoreOf_clamp. unfold clamp.
  destruct (Rlt_dec _ 0); [right; right; split; lra |].
  destruct (Rlt_dec 100 _); [left; split; lra |].
  destruct (Rle_dec ri 60000); [left; split; lra |].
  destruct (Rle_dec 95000 ri); [right; right; split; lra |].
  right; left. split; [lra | field].
Qed.

Lemma sweetnessOf_cases (ri : R) :
  (ri <= 52500 /\ sweetnessOf ri = 13) \/
  (52500 < ri < 112500 /\ sweetnessOf ri = 12 - 4 * (ri - 60000) / 30000) \/
  (112500 <= ri /\ sweetnessOf ri = 5).
Proof.
  rewrite sweetnessOf_clamp. unfold clamp.
  destruct (Rlt_dec _ 5); [right; right; split; lra |].
  destruct (Rlt_dec 13 _); [left; split; lra |].
  destruct (Rle_dec ri 52500); [left; split; lra |].
  destruct (Rle_dec 112500 ri); [right; right; split; lra |].
  right; left. split; [lra | reflexivity].
Qed.

(** X9.  With a valid mass the stored result is complete and within range:
    the index is not negative, the score lies in [0, 100], the sweetness in
    [5, 13] and so is never a falsy 0 (the template shows the result panel
    on a truthy sweetness), and the class is one of "ripe", "borderline"
    and "unripe". *)
Theorem stored_result_within_ranges (st : State) (f : R) (Hm : 0 < massKg st) :
  let r := result (calculateRipeness st f) in
  baseFrequency r = Some f /\
  (exists ri, ripenessIndex r = Some ri /\ 0 <= ri) /\
  (exists score, ripenessScore r = Some score /\ 0 <= score <= 100) /\
  (exists brix, sweetnessBrix r = Some brix /\ 5 <= brix <= 13) /\
  (ripenessClass r = "ripe" \/ ripenessClass r = "borderline" \/
   ripenessClass r = "unripe")%string /\
  verdict r <> ""%string.
Proof.
  cbv zeta. rewrite (calculateRipeness_valid st f Hm). cbv zeta. simpl.
  split; [reflexivity |].
  split; [eexists; split; [reflexivity | apply ripenessIndexOf_nonneg] |].
  split; [eexists; split; [reflexivity | apply scoreOf_range] |].
  split; [eexists; split; [reflexivity | apply sweetnessOf_range] |].
  unfold verdictOf.
  destruct (Rlt_dec _ 74000); [| destruct (Rlt_dec _ 85000)]; simpl;
    (split; [tauto | discriminate]).
Qed.

Lemma stored_result_within_ranges_witness :
  0 < massKg initialState /\
  baseFrequency (result (calculateRipeness initialState 120)) = Some 120.
Proof.
  assert (Hm : 0 < massKg initialState) by (simpl; lra).
  split; [exact Hm |].
  apply (stored_result_within_ranges initialState 120 Hm).
Defined.

(** X10.  Where the clamps saturate: the score is 100 exactly for an index
    of at most 60000 and 0 exactly from 95000 on; the sweetness is 13
    exactly up to 52500 and 5 exactly from 112500 on; in between both are
    the unclamped linear formulas. *)
Theorem score_and_sweetness_saturation (ri : R) :
  (scoreOf ri = 100 <-> ri <= 60000) /\
  (scoreOf ri = 0 <-> 95000 <= ri) /\
  (60000 <= ri <= 95000 -> scoreOf ri = 100 * (95000 - ri) / 35000) /\
  (sweetnessOf ri = 13 <-> ri <= 52500) /\
  (sweetnessOf ri = 5 <-> 112500 <= ri) /\
  (52500 <= ri <= 112500 -> sweetnessOf ri = 12 - 4 * (ri - 60000) / 30000).
Proof.
  destruct (scoreOf_cases ri) as [[H1 E1] | [[H1 E1] | [H1 E1]]];
  destruct (sweetnessOf_cases ri) as [[H2 E2] | [[H2 E2] | [H2 E2]]];
    rewrite E1, E2; repeat split; intros; lra.
Qed.

(** X11.  The score and the verdict always agree: with a valid mass the
    class is "ripe" exactly when the score is above 60, "unripe" exactly
    when it is at most 200/7 (about 28.6), and "borderline" in between. *)
Theorem verdict_agrees_with_score (st : State) (f : R) (Hm : 0 < massKg st) :
  let r := result (calculateRipeness st f) in
  exists score,
    ripenessScore r = Some score /\
    (ripenessClass r = "ripe"%string <-> 60 < score) /\
    (ripenessClass r = "borderline"%string <-> 200 / 7 < score <= 60) /\
    (ripenessClass r = "unripe"%string <-> score <= 200 / 7).
Proof.
  cbv zeta. rewrite (calculateRipeness_valid st f Hm). cbv zeta. simpl.
  set (ri := ripenessIndexOf f (massKg st)).
  exists (scoreOf ri). split; [reflexivity |].
  destruct (verdictOf_class ri) as (Hripe & Hborder & Hunripe).
  rewrite Hripe, Hborder, Hunripe.
  destruct (scoreOf_cases ri) as [[H1 E1] | [[H1 E1] | [H1 E1]]]; rewrite E1;
    repeat split; intros; lra.
Qed.

Lemma verdict_agrees_with_score_witness :
  0 < massKg (inputMass 1 initialState) /\
  exists score,
    ripenessScore (result (calculateRipeness (inputMass 1 initialState)
                             (sqrt 74000))) = Some score /\
    score <= 60.
Proof.
  assert (Hm : 0 < massKg (inputMass 1 initialState)) by (simpl; lra).
  split; [exact Hm |].
  destruct (verdict_agrees_with_score (inputMass 1 initialState) (sqrt 74000) Hm)
    as (score & Hs & Hripe & _ & _).
  exists score. split; [exact Hs |].
  destruct (Rle_dec score 60) as [Hle | Hgt]; [exact Hle | exfalso].
  assert (Hc : ripenessClass (result (calculateRipeness
                 (inputMass 1 initialState) (sqrt 74000))) = "ripe"%string)
    by (apply Hripe; lra).
  rewrite (calculateRipeness_valid _ _ Hm) in Hc. cbv zeta in Hc. simpl in Hc.
  apply (proj1 (verdictOf_class _)) in Hc.
  change (massKg initialState) with 4.5 in Hc.
  rewrite (ripenessIndexOf_sqrt 74000) in Hc; lra.
Defined.

(** X12.  For a fixed tap frequency a heavier melon never gets a lower
    ripeness index, hence never a higher score or sweetness. *)
Theorem heavier_melon_never_scores_higher (f m1 m2 : R)
    (Hm1 : 0 < m1) (Hm12 : m1 <= m2) :
  ripenessIndexOf f m1 <= ripenessIndexOf f m2 /\
  scoreOf (ripenessIndexOf f m2) <= scoreOf (ripenessIndexOf f m1) /\
  sweetnessOf (ripenessIndexOf f m2) <= sweetnessOf (ripenessIndexOf f m1).
Proof.
  assert (Hri : ripenessIndexOf f m1 <= ripenessIndexOf f m2).
  { unfold ripenessIndexOf. apply Rmult_le_compat_l; [apply pow2_ge_0 |].
    apply Rle_Rpower_l; lra. }
  split; [exact Hri |].
  split; [apply scoreOf_antitone | apply sweetnessOf_antitone]; exact Hri.
Qed.

Lemma heavier_melon_never_scores_higher_witness :
  ripenessIndexOf 150 3 <= ripenessIndexOf 150 4.5.
Proof.
  apply (heavier_melon_never_scores_higher 150 3 4.5); lra.
Defined.

(** The result stored for a frequency of 0. *)
Lemma calculateRipeness_zero_frequency (st : State) :
  0 < massKg st ->
  result (calculateRipeness st 0)
    = {| baseFrequency := Some 0; ripenessIndex := Some 0;
         ripenessScore := Some 100; sweetnessBrix := Some 13;
         verdict := fst (verdictOf 0); ripenessClass := "ripe" |}.
Proof.
  intros Hm. rewrite (calculateRipeness_valid st _ Hm). cbv zeta.
  assert (Hzero : ripenessIndexOf 0 (massKg st) = 0).
  { unfold ripenessIndexOf. ring. }
  rewrite Hzero.
  destruct (scoreOf_cases 0) as [[_ Es] | [[H _] | [H _]]]; try lra.
  destruct (sweetnessOf_cases 0) as [[_ Eb] | [[H _] | [H _]]]; try lra.
  rewrite Es, Eb.
  replace (snd (verdictOf 0)) with "ripe"%string; [reflexivity |].
  symmetry. apply (proj1 (verdictOf_class 0)). lra.
Qed.

(** X13.  The sign of the tap frequency is irrelevant and a frequency of 0
    is scored as a perfect melon: index 0, class "ripe", score 100 and
    sweetness 13, whatever the (valid) mass. *)
Theorem zero_frequency_scores_perfect (st : State) (f : R) (Hm : 0 < massKg st) :
  result (calculateRipeness st (- f))
    = {| baseFrequency := Some (- f);
         ripenessIndex := ripenessIndex (result (calculateRipeness st f));
         ripenessScore := ripenessScore (result (calculateRipeness st f));
         sweetnessBrix := sweetnessBrix (result (calculateRipeness st f));
         verdict := verdict (result (calculateRipeness st f));
         ripenessClass := ripenessClass (result (calculateRipeness st f)) |} /\
  result (calculateRipeness st 0)
    = {| baseFrequency := Some 0; ripenessIndex := Some 0;
         ripenessScore := Some 100; sweetnessBrix := Some 13;
         verdict := fst (verdictOf 0); ripenessClass := "ripe" |}.
Proof.
  split; [| apply calculateRipeness_zero_frequency; exact Hm].
  rewrite !(calculateRipeness_valid st _ Hm). cbv zeta.
  assert (Heven : ripenessIndexOf (- f) (massKg st) = ripenessIndexOf f (massKg st)).
  { unfold ripenessIndexOf. f_equal. ring. }
  rewrite Heven. reflexivity.
Qed.

Lemma zero_frequency_scores_perfect_witness :
  0 < massKg initialState /\
  ripenessScore (result (calculateRipeness initialState 0)) = Some 100.
Proof.
  assert (Hm : 0 < massKg initialState) by (simpl; lra).
  split; [exact Hm |].
  rewrite (proj2 (zero_frequency_scores_perfect initialState 0 Hm)).
  reflexivity.
Defined.

Lemma calculateRipeness_valid_state (st : State) (f : R) :
  0 < massKg st ->
  calculateRipeness st f = setResult (result (calculateRipeness st f)) st.
Proof.
  intros Hm. unfold calculateRipeness.
  destruct (Rle_dec (massKg st) 0); [lra | reflexivity].
Qed.

(** X14.  [calculateRipeness] writes the result and nothing else, and a
    second call replaces what the first one stored. *)
Theorem calculateRipeness_only_writes_result (st : State) (f1 f2 : R) :
  massKg (calculateRipeness st f1) = massKg st /\
  isListening (calculateRipeness st f1) = isListening st /\
  error (calculateRipeness st f1) = error st /\
  sensitivity (calculateRipeness st f1) = sensitivity st /\
  audio (calculateRipeness st f1) = audio st /\
  animationFrameId (calculateRipeness st f1) = animationFrameId st /\
  calculateRipeness (calculateRipeness st f1) f2 = calculateRipeness st f2.
Proof.
  destruct (Rle_dec (massKg st) 0) as [Hle | Hgt].
  - rewrite (calculateRipeness_invalid st f1 Hle). repeat split.
  - assert (Hm : 0 < massKg st) by lra.
    rewrite (calculateRipeness_valid_state st f1 Hm).
    set (r1 := result (calculateRipeness st f1)).
    repeat split.
    rewrite (calculateRipeness_valid_state (setResult r1 st) f2 Hm).
    rewrite (calculateRipeness_valid_state st f2 Hm).
    rewrite !calculateRipeness_valid by exact Hm. reflexivity.
Qed.

End RipenessEdges.

(** ** The session *)

Section Session.
Local Open Scope R_scope.

Lemma resultWellFormed_calculateRipeness (st : State) (f : R) :
  0 < massKg st -> resultWellFormed (result (calculateRipeness st f)).
Proof.
  intros Hm. right. rewrite (calculateRipeness_valid st f Hm). cbv zeta.
  exists f, (ripenessIndexOf f (massKg st)),
    (scoreOf (ripenessIndexOf f (massKg st))),
    (sweetnessOf (ripenessIndexOf f (massKg st))).
  simpl. repeat split;
    try apply ripenessIndexOf_nonneg; try apply scoreOf_range;
    try apply sweetnessOf_range.
  unfold verdictOf.
  destruct (Rlt_dec _ 74000); [| destruct (Rlt_dec _ 85000)]; simpl; tauto.
Qed.

Lemma isMassValid_iff (st : State) : isMassValid st = true <-> 0 < massKg st.
Proof.
  unfold isMassValid. destruct (Rlt_dec 0 (massKg st)) as [Hpos | Hneg]; split;
    intros H; try reflexivity; try assumption;
    [discriminate H | contradiction].
Qed.

Ltac session_goals :=
  unfold sessionInvariant; simpl; repeat split; intros;
  try discriminate; try assumption; try reflexivity; auto.

Lemma sessionInvariant_initial : sessionInvariant initialState.
Proof. session_goals. left. reflexivity. Qed.

Lemma sessionInvariant_stopListening (st : State) :
  resultWellFormed (result st) ->
  (forall a, audio st = Some a -> fftSize a = 16384%positive) ->
  sessionInvariant (stopListening st).
Proof.
  intros Hr Ha. unfold stopListening.
  destruct (animationFrameId st) eqn:Hid; session_goals.
Qed.

Lemma sessionInvariant_startDetection (b : Browser) (st : State) :
  sessionInvariant st -> isListening st = false -> 0 < massKg st ->
  sessionInvariant (startDetection b st).
Proof.
  intros (Hon & Hoff & Hfft & Hres) Hidle Hm.
  specialize (Hoff Hidle).
  unfold startDetection.
  destruct (hasMediaDevices b); simpl.
  - destruct (getUserMedia b) as [rate | err]; session_goals.
    + eexists. reflexivity.
    + match goal with H : Some _ = Some _ |- _ => injection H as <- end.
      reflexivity.
    + left. reflexivity.
    + left. reflexivity.
  - session_goals; rewrite Hidle in *; discriminate.
Qed.

Lemma sessionInvariant_processAudio (d : Frame) (st : State) :
  sessionInvariant st -> isListening st = true ->
  sessionInvariant (processAudio d st).
Proof.
  intros (Hon & Hoff & Hfft & Hres) Hl.
  destruct (Hon Hl) as (Hm & Hid & Hempty & Herr & a & Ha).
  unfold processAudio. rewrite Ha.
  destruct (evaluate d (sampleRate a) (fftSize a) _ _) as [f |].
  - apply sessionInvariant_stopListening.
    + apply resultWellFormed_calculateRipeness. exact Hm.
    + rewrite (calculateRipeness_valid_state st _ Hm). simpl. exact Hfft.
  - session_goals.
    + exists a. exact Ha.
    + rewrite Hl in *. discriminate.
Qed.

Lemma sessionInvariant_handle (e : Event) (st : State) :
  sessionInvariant st -> sessionInvariant (handle e st).
Proof.
  intros Hinv. destruct e as [b | m | s | d |]; simpl.
  - unfold clickStart, startDisabled.
    destruct (isListening st) eqn:Hl; simpl; [exact Hinv |].
    destruct (isMassValid st) eqn:Hv; simpl; [| exact Hinv].
    apply sessionInvariant_startDetection; try assumption.
    apply isMassValid_iff. exact Hv.
  - unfold inputMass. destruct (isListening st) eqn:Hl; [exact Hinv |].
    destruct Hinv as (_ & Hoff & Hfft & Hres).
    session_goals; rewrite Hl in *; discriminate.
  - unfold inputSensitivity. destruct (isListening st) eqn:Hl; [exact Hinv |].
    destruct Hinv as (_ & Hoff & Hfft & Hres).
    session_goals; rewrite Hl in *; discriminate.
  - destruct (animationFrameId st) eqn:Hid; [| exact Hinv].
    apply sessionInvariant_processAudio; [exact Hinv |].
    destruct (isListening st) eqn:Hl; [reflexivity |].
    destruct Hinv as (_ & Hoff & _). rewrite (Hoff Hl) in Hid. discriminate.
  - destruct Hinv as (_ & _ & Hfft & Hres).
    apply sessionInvariant_stopListening; assumption.
Qed.

Lemma run_snoc (events : list Event) (e : Event) (st : State) :
  run (events ++ [e]) st = handle e (run events st).
Proof. unfold run. rewrite fold_left_app. reflexivity. Qed.

Lemma sessionInvariant_run (events : list Event) (st : State) :
  sessionInvariant st -> sessionInvariant (run events st).
Proof.
  revert st. induction events as [| e events IH]; intros st Hinv; simpl.
  - exact Hinv.
  - apply IH, sessionInvariant_handle, Hinv.
Qed.

Lemma stopListening_result (st : State) : result (stopListening st) = result st.
Proof. unfold stopListening. destruct (animationFrameId st); reflexivity. Qed.

Lemma stopListening_frame (st : State) : animationFrameId (stopListening st) = None.
Proof.
  unfold stopListening. destruct (animationFrameId st) eqn:E; simpl;
    [reflexivity | exact E].
Qed.

Lemma calculateRipeness_only_writes_state (st : State) (f : R) :
  massKg (calculateRipeness st f) = massKg st /\
  sensitivity (calculateRipeness st f) = sensitivity st.
Proof.
  unfold calculateRipeness. destruct (Rle_dec (massKg st) 0); split; reflexivity.
Qed.

Lemma session_invariant_holds (events : list Event) :
  sessionInvariant (run events initialState).
Proof. apply sessionInvariant_run, sessionInvariant_initial. Qed.

(** X16.  Nothing changes the mass or the sensitivity, and with them the two
    thresholds, while the page listens: the two inputs are disabled and
    neither a frame nor a stop writes them. *)
Theorem configuration_frozen_while_listening (e : Event) (st : State)
    (Hl : isListening st = true) :
  massKg (handle e st) = massKg st /\
  sensitivity (handle e st) = sensitivity st /\
  absoluteThreshold (sensitivity (handle e st))
    = absoluteThreshold (sensitivity st) /\
  relativeThreshold (sensitivity (handle e st))
    = relativeThreshold (sensitivity st).
Proof.
  assert (H : massKg (handle e st) = massKg st /\
              sensitivity (handle e st) = sensitivity st).
  { destruct e as [b | m | s | d |]; simpl.
    - unfold clickStart, startDisabled. rewrite Hl. simpl. split; reflexivity.
    - unfold inputMass. rewrite Hl. split; reflexivity.
    - unfold inputSensitivity. rewrite Hl. split; reflexivity.
    - destruct (animationFrameId st); [| split; reflexivity].
      unfold processAudio. destruct (audio st) as [a |]; [| split; reflexivity].
      destruct (evaluate d _ _ _ _) as [f |]; [| split; reflexivity].
      destruct (calculateRipeness_only_writes_state st (Q2R f)) as (Hm & Hs).
      unfold stopListening.
      destruct (animationFrameId (calculateRipeness st (Q2R f))); simpl;
        split; assumption.
    - unfold stopListening. destruct (animationFrameId st); split; reflexivity. }
  destruct H as [Hm Hs]. rewrite Hs. repeat split. exact Hm.
Qed.

Lemma configuration_frozen_while_listening_witness :
  let st := run [ClickStart {| hasMediaDevices := true;
                               getUserMedia := Granted 48000 |}] initialState in
  isListening st = true /\
  massKg (handle (InputMass 0) st) = massKg st /\
  sensitivity (handle (InputSensitivity 20) st) = sensitivity st.
Proof.
  cbv zeta.
  set (st := run [ClickStart {| hasMediaDevices := true;
                                getUserMedia := Granted 48000 |}] initialState).
  assert (Hl : isListening st = true).
  { unfold st, run. simpl. unfold clickStart, startDisabled.
    rewrite (isMassValid_true initialState) by (simpl; lra). reflexivity. }
  split; [exact Hl |]. split.
  - apply (configuration_frozen_while_listening (InputMass 0) st Hl).
  - apply (configuration_frozen_while_listening (InputSensitivity 20) st Hl).
Defined.

(** X17.  In every state the page can reach, a frame that triggers the
    detector ends the session with a complete result: listening stops, no
    callback stays pending, the stored base frequency is the emitted one,
    the score is within range (the silent return of [calculateRipeness] on
    an invalid mass cannot happen here), and later frames are ignored. *)
Theorem detection_ends_session_with_complete_result
    (events : list Event) (d d' : Frame) (a : Audio) (f : Q)
    (Hl : isListening (run events initialState) = true)
    (Ha : audio (run events initialState) = Some a)
    (Hdet : evaluate d (sampleRate a) (fftSize a)
              (absoluteThreshold (sensitivity (run events initialState)))
              (relativeThreshold (sensitivity (run events initialState)))
            = Some f) :
  let st' := handle (AnimationFrame d) (run events initialState) in
  isListening st' = false /\
  animationFrameId st' = None /\
  baseFrequency (result st') = Some (Q2R f) /\
  (exists score, ripenessScore (result st') = Some score /\ 0 <= score <= 100) /\
  (exists brix, sweetnessBrix (result st') = Some brix /\ 5 <= brix <= 13) /\
  handle (AnimationFrame d') st' = st'.
Proof.
  set (st := run events initialState) in *.
  destruct (session_invariant_holds events) as (Hon & _ & _ & _).
  fold st in Hon. destruct (Hon Hl) as (Hm & Hid & _ & _ & _).
  assert (Hstep : handle (AnimationFrame d) st
                  = stopListening (calculateRipeness st (Q2R f))).
  { simpl. destruct (animationFrameId st) eqn:E; [| contradiction].
    unfold processAudio. rewrite Ha, Hdet. reflexivity. }
  cbv zeta. rewrite Hstep.
  assert (Hres := stopListening_result (calculateRipeness st (Q2R f))).
  assert (Hnone := stopListening_frame (calculateRipeness st (Q2R f))).
  assert (Hlater : handle (AnimationFrame d')
                     (stopListening (calculateRipeness st (Q2R f)))
                   = stopListening (calculateRipeness st (Q2R f))).
  { unfold handle. rewrite Hnone. reflexivity. }
  split; [apply stopListening_idle |]. split; [exact Hnone |].
  rewrite Hres, (calculateRipeness_valid st _ Hm). cbv zeta.
  cbn [baseFrequency ripenessScore sweetnessBrix].
  split; [reflexivity |].
  split; [eexists; split; [reflexivity | apply scoreOf_range] |].
  split; [eexists; split; [reflexivity | apply sweetnessOf_range] |].
  exact Hlater.
Qed.

Lemma clickStart_idle_valid (b : Browser) (st : State) :
  isListening st = false -> 0 < massKg st ->
  clickStart b st = startDetection b st.
Proof.
  intros Hidle Hm. unfold clickStart, startDisabled.
  rewrite Hidle, (isMassValid_true st Hm). reflexivity.
Qed.

Lemma detection_ends_session_with_complete_result_witness :
  let st := run [ClickStart (grantingBrowser 48000)] initialState in
  isListening st = true /\
  baseFrequency (result (handle (AnimationFrame tapFrame) st))
    = Some (Q2R (1680000 # 16384)).
Proof.
  cbv zeta.
  assert (Hrun : run [ClickStart (grantingBrowser 48000)] initialState
                 = startDetection (grantingBrowser 48000) initialState).
  { cbn [run fold_left handle]. apply clickStart_idle_valid;
      [reflexivity | simpl; lra]. }
  assert (Hl : isListening (run [ClickStart (grantingBrowser 48000)] initialState)
               = true) by (rewrite Hrun; reflexivity).
  split; [exact Hl |].
  apply (detection_ends_session_with_complete_result
           [ClickStart (grantingBrowser 48000)] tapFrame [] 
           {| sampleRate := 48000; fftSize := 16384 |} (1680000 # 16384) Hl).
  - rewrite Hrun. reflexivity.
  - rewrite Hrun. vm_compute. reflexivity.
Defined.



Lemma Q2R_zero_times (w : Q) : Q2R (inject_Z 0 * w) = 0.
Proof. rewrite Q2R_mult. unfold Q2R at 1. simpl. lra. Qed.

(** X20.  Silence ends a session at high sensitivity: in every reachable
    listening state whose sensitivity exceeds 16, a frame whose band is all
    zeros is taken for a thump at 0 Hz and the page shows a perfect melon
    (class "ripe", score 100, sweetness 13). *)
Theorem silence_at_high_sensitivity_scores_perfect
    (events : list Event) (d : Frame) (a : Audio)
    (Hl : isListening (run events initialState) = true)
    (Ha : audio (run events initialState) = Some a)
    (Hrate : (0 < sampleRate a)%Q)
    (Hs : (16 < sensitivity (run events initialState))%Q)
    (Hband : (minIndex (sampleRate a) (fftSize a)
              < maxIndex (sampleRate a) (fftSize a))%Z)
    (Hframe : (maxIndex (sampleRate a) (fftSize a)
               <= Z.of_nat (List.length d))%Z)
    (Hsilent : Forall (fun v => v = 0%Z)
                 (bandOf d (minIndex (sampleRate a) (fftSize a))
                    (maxIndex (sampleRate a) (fftSize a)))) :
  let st' := handle (AnimationFrame d) (run events initialState) in
  isListening st' = false /\
  result st'
    = {| baseFrequency := Some 0; ripenessIndex := Some 0;
         ripenessScore := Some 100; sweetnessBrix := Some 13;
         verdict := fst (verdictOf 0); ripenessClass := "ripe" |}.
Proof.
  set (st := run events initialState) in *.
  destruct (session_invariant_holds events) as (Hon & _ & _ & _).
  fold st in Hon. destruct (Hon Hl) as (Hm & Hid & _ & _ & _).
  destruct (evaluate_silent_band d (sampleRate a) (fftSize a) (sensitivity st)
              Hrate Hband Hframe Hsilent) as [Hdet _].
  specialize (Hdet Hs).
  assert (Hstep : handle (AnimationFrame d) st
                  = stopListening (calculateRipeness st 0)).
  { simpl. destruct (animationFrameId st) eqn:E; [| contradiction].
    unfold processAudio. rewrite Ha, Hdet, Q2R_zero_times. reflexivity. }
  cbv zeta. rewrite Hstep.
  split; [apply stopListening_idle |].
  rewrite stopListening_result. apply calculateRipeness_zero_frequency, Hm.
Qed.

Lemma silence_at_high_sensitivity_scores_perfect_witness :
  let st := run [InputSensitivity 17; ClickStart (grantingBrowser 48000)]
              initialState in
  isListening st = true /\
  (16 < sensitivity st)%Q /\
  ripenessScore (result (handle (AnimationFrame silentFrame) st)) = Some 100.
Proof.
  cbv zeta.
  set (events := [InputSensitivity 17; ClickStart (grantingBrowser 48000)]).
  assert (Hrun : run events initialState
                 = startDetection (grantingBrowser 48000)
                     (inputSensitivity 17 initialState)).
  { unfold events. cbn [run fold_left handle]. apply clickStart_idle_valid;
      [reflexivity | simpl; lra]. }
  assert (Hl : isListening (run events initialState) = true)
    by (rewrite Hrun; reflexivity).
  assert (Hs : (16 < sensitivity (run events initialState))%Q)
    by (rewrite Hrun; reflexivity).
  split; [exact Hl |]. split; [exact Hs |].
  assert (Ha : audio (run events initialState)
               = Some {| sampleRate := 48000; fftSize := 16384 |})
    by (rewrite Hrun; reflexivity).
  destruct (silence_at_high_sensitivity_scores_perfect events silentFrame
              {| sampleRate := 48000; fftSize := 16384 |} Hl Ha)
    as [_ Hres].
  - reflexivity.
  - exact Hs.
  - vm_compute. reflexivity.
  - vm_compute. discriminate.
  - apply Forall_forall. intros v Hv. apply bandOf_incl in Hv.
    apply (repeat_spec _ _ _ Hv).
  - rewrite Hres. reflexivity.
Defined.

End Session.

(** ** Drawing the spectrum *)

Section Drawing.
Local Open Scope Z_scope.

Lemma drawPoint_in_frame (d : Frame) (height : N) (i v : Z) (x : number) :
  readBin d i = Some v ->
  exists y,
    (y == inject_Z (Z.of_N height)
          - inject_Z v * (1 # 256) * inject_Z (Z.of_N height))%Q /\
    drawPoint d height i x
      = if i =? 0 then MoveTo x (Fin y) else LineTo x (Fin y).
Proof.
  intros Hr. unfold drawPoint. rewrite Hr. cbv zeta. simpl toNumber.
  exists (inject_Z (Z.of_N height)
          + - (inject_Z v / 256 * inject_Z (Z.of_N height)))%Q.
  split.
  - unfold Qdiv. change (/ 256)%Q with (1 # 256)%Q. ring.
  - reflexivity.
Qed.

Lemma byte_height_inside (v : Z) (height : N) (y : Q) :
  0 <= v < 256 ->
  (y == inject_Z (Z.of_N height)
        - inject_Z v * (1 # 256) * inject_Z (Z.of_N height))%Q ->
  (0 <= y <= inject_Z (Z.of_N height))%Q.
Proof.
  intros Hv Hy.
  assert (Hh : (0 <= inject_Z (Z.of_N height))%Q).
  { change 0%Q with (inject_Z 0). rewrite <- Zle_Qle. lia. }
  assert (Ht0 : (0 <= inject_Z v * (1 # 256))%Q).
  { assert (H : (inject_Z 0 <= inject_Z v)%Q) by (rewrite <- Zle_Qle; lia).
    change (inject_Z 0) with 0%Q in H. lra. }
  assert (Ht1 : (inject_Z v * (1 # 256) <= 1)%Q).
  { assert (H : (inject_Z v <= inject_Z 256)%Q) by (rewrite <- Zle_Qle; lia).
    change (inject_Z 256) with 256%Q in H. lra. }
  set (t := (inject_Z v * (1 # 256))%Q) in *.
  assert (Hp0 : (0 <= t * inject_Z (Z.of_N height))%Q)
    by (apply Qmult_le_0_compat; assumption).
  assert (Hp1 : (t * inject_Z (Z.of_N height) <= 1 * inject_Z (Z.of_N height))%Q)
    by (apply Qmult_le_compat_r; assumption).
  set (p := (t * inject_Z (Z.of_N height))%Q) in *.
  rewrite Hy. split; lra.
Qed.

(** The drawing loop on bins inside a frame of bytes, with the pen at [q] and
    room for the remaining [n] slices. *)
Lemma drawLoop_inside (c : Canvas) (d : Frame) (sw : Q) (n : nat) :
  isUint8Array d = true -> (0 <= sw)%Q ->
  forall (i : Z) (q : Q),
    0 <= i -> (Z.to_nat i + n <= List.length d)%nat ->
    (0 <= q)%Q ->
    (q + inject_Z (Z.of_nat n) * sw <= inject_Z (Z.of_N (canvasWidth c)))%Q ->
    Forall (insideCanvas c)
      (drawLoop d (canvasHeight c) (Fin sw) n i (Fin q)).
Proof.
  intros Hbytes Hsw. induction n as [| n IH]; intros i q Hi Hlen Hq Hroom.
  - constructor.
  - assert (Hn : (0 <= inject_Z (Z.of_nat n) * sw)%Q).
    { apply Qmult_le_0_compat; [| exact Hsw].
      change 0%Q with (inject_Z 0). rewrite <- Zle_Qle. lia. }
    assert (Hsucc : (inject_Z (Z.of_nat (S n)) * sw
                     == inject_Z (Z.of_nat n) * sw + sw)%Q).
    { rewrite Nat2Z.inj_succ. unfold Z.succ. rewrite inject_Z_plus.
      change (inject_Z 1) with 1%Q. ring. }
    rewrite Hsucc in Hroom.
    simpl drawLoop. constructor.
    + destruct (nth_error d (Z.to_nat i)) as [v |] eqn:Hv.
      * assert (Hr : readBin d i = Some v) by (rewrite readBin_nat; assumption).
        destruct (drawPoint_in_frame d (canvasHeight c) i v (Fin q) Hr)
          as (y & Hy & Hpoint).
        assert (Hbyte : 0 <= v < 256).
        { apply (isUint8Array_In d v Hbytes), (nth_error_In _ _ Hv). }
        assert (Hin := byte_height_inside v (canvasHeight c) y Hbyte Hy).
        rewrite Hpoint.
        destruct (i =? 0); simpl; exists q, y;
          (split; [reflexivity |]; split; [reflexivity |]; split; [lra | exact Hin]).
      * apply nth_error_None in Hv. lia.
    + simpl numAdd. apply IH; try lia; lra.
Qed.

Lemma numMul_ofZ_Fin (a : Z) (b : Q) : numMul (ofZ a) (Fin b) = Fin (inject_Z a * b).
Proof. reflexivity. Qed.

Lemma drawLoop_length (d : Frame) (height : N) (sw : number) (n : nat) :
  forall i x, List.length (drawLoop d height sw n i x) = n.
Proof.
  induction n as [| n IH]; intros i x; simpl; [reflexivity |].
  rewrite IH. reflexivity.
Qed.

Lemma drawLoop_no_moveTo (d : Frame) (height : N) (sw : number) (n : nat) :
  forall i x, 0 < i ->
    Forall (fun cmd => isMoveTo cmd = false) (drawLoop d height sw n i x).
Proof.
  induction n as [| n IH]; intros i x Hi; simpl; constructor.
  - unfold drawPoint. cbv zeta.
    destruct (Z.eqb_spec i 0); [lia | reflexivity].
  - apply IH. lia.
Qed.

(** X21.  Without a canvas or without a 2D context nothing is drawn.
    Otherwise the drawing is the background, one path point per bin of the
    band, a closing line to the bottom right corner and the stroke; and for
    a frame of bytes and a band inside the frame every point of the path
    has finite coordinates inside the canvas. *)
Theorem drawing_stays_inside_canvas
    (c : Canvas) (d : Frame) (lo hi : Z)
    (Hctx : has2d c = true)
    (Hbytes : isUint8Array d = true)
    (Hlo : 0 <= lo)
    (Hframe : hi <= Z.of_nat (List.length d)) :
  drawVisualization None d lo hi = [] /\
  drawVisualization (Some (mkCanvas (canvasWidth c) (canvasHeight c) false))
    d lo hi = [] /\
  List.length (drawVisualization (Some c) d lo hi)
    = (7 + Z.to_nat (hi - lo))%nat /\
  Forall (insideCanvas c) (drawVisualization (Some c) d lo hi).
Proof.
  split; [reflexivity |]. split; [reflexivity |].
  unfold drawVisualization. rewrite Hctx. cbv zeta. simpl negb. cbv iota.
  assert (Hw : (0 <= inject_Z (Z.of_N (canvasWidth c)))%Q).
  { change 0%Q with (inject_Z 0). rewrite <- Zle_Qle. lia. }
  assert (Hh : (0 <= inject_Z (Z.of_N (canvasHeight c)))%Q).
  { change 0%Q with (inject_Z 0). rewrite <- Zle_Qle. lia. }
  split.
  - rewrite !length_app, drawLoop_length. simpl. lia.
  - apply Forall_app. split; [repeat constructor |].
    apply Forall_app. split.
    + destruct (Z.le_gt_cases hi lo) as [Hempty | Hband].
      * replace (Z.to_nat (hi - lo)) with 0%nat by lia. constructor.
      * rewrite numMul_ofZ_Fin, numDiv_Fin_nonzero by lia.
        assert (Hpos : (0 < inject_Z (hi - lo))%Q).
        { change 0%Q with (inject_Z 0). rewrite <- Zlt_Qlt. lia. }
        apply drawLoop_inside; try assumption; try lia.
        { apply Qle_shift_div_l; [exact Hpos | lra]. }
        { unfold inject_Z at 1. lra. }
        { rewrite Z2Nat.id by lia.
          assert (E : (0 + inject_Z (hi - lo)
                         * (inject_Z (Z.of_N (canvasWidth c)) * 1
                            / inject_Z (hi - lo))
                       == inject_Z (Z.of_N (canvasWidth c)))%Q)
            by (field; lra).
          unfold ofZ. rewrite E. lra. }
    + constructor; [| repeat constructor].
      simpl. exists (inject_Z (Z.of_N (canvasWidth c))),
               (inject_Z (Z.of_N (canvasHeight c))).
      repeat split; try reflexivity; lra.
Qed.

Lemma drawing_stays_inside_canvas_witness :
  has2d templateCanvas = true /\
  isUint8Array tapFrame = true /\
  List.length (drawVisualization (Some templateCanvas) tapFrame 34 102) = 75%nat.
Proof.
  assert (Hb : isUint8Array tapFrame = true) by (vm_compute; reflexivity).
  split; [reflexivity |]. split; [exact Hb |].
  destruct (drawing_stays_inside_canvas templateCanvas tapFrame 34 102
              eq_refl Hb) as (_ & _ & Hlen & _).
  - lia.
  - vm_compute. discriminate.
  - exact Hlen.
Defined.

(** X22.  The path is opened by [moveTo] only when the loop meets bin 0.
    For the band [processAudio] passes, with a bin width of at most 200 Hz,
    [minIndex] is at least 1 and the drawing never calls [moveTo]: every
    point of the trace is a [lineTo]. *)
Theorem drawing_of_band_never_moves
    (canvas : option Canvas) (d : Frame) (rate : Q) (size : positive)
    (Hrate : (0 < rate)%Q)
    (Hwidth : (binWidth rate size <= 200)%Q) :
  1 <= minIndex rate size /\
  Forall (fun cmd => isMoveTo cmd = false)
    (drawVisualization canvas d (minIndex rate size) (maxIndex rate size)).
Proof.
  assert (Hw := binWidth_pos rate size Hrate).
  assert (Hmin : 1 <= minIndex rate size).
  { rewrite <- (Qfloor_Z 1). unfold minIndex, mathRound.
    apply Qfloor_resp_le. change (inject_Z 1) with 1%Q.
    assert (H : (1 # 2 <= relevantFreqMin / binWidth rate size)%Q).
    { apply Qle_shift_div_l; [exact Hw |]. unfold relevantFreqMin. lra. }
    lra. }
  split; [exact Hmin |].
  unfold drawVisualization. destruct canvas as [c |]; [| constructor].
  destruct (has2d c); simpl negb; cbv iota; [| constructor].
  cbv zeta. apply Forall_app. split; [repeat constructor |].
  apply Forall_app. split; [| repeat constructor].
  apply drawLoop_no_moveTo. lia.
Qed.

Lemma drawing_of_band_never_moves_witness :
  (0 < 48000)%Q /\
  Forall (fun cmd => isMoveTo cmd = false)
    (drawVisualization (Some templateCanvas) tapFrame
       (minIndex 48000 16384) (maxIndex 48000 16384)).
Proof.
  assert (Hr : (0 < 48000)%Q) by reflexivity.
  split; [exact Hr |].
  apply (drawing_of_band_never_moves (Some templateCanvas) tapFrame 48000 16384 Hr).
  vm_compute. discriminate.
Defined.

End Drawing.

(** ** The page with its pending asynchronous work *)

Section AsyncPage.
Local Open Scope R_scope.

(** The two halves of [startDetection] make up the whole function. *)
Lemma startDetection_split (b : Browser) (st : State) :
  startDetection b st
  = let (st1, suspended) := startDetectionBegin (hasMediaDevices b) st in
    if suspended then startDetectionResume (getUserMedia b) st1 else st1.
Proof.
  unfold startDetection, startDetectionBegin, startDetectionResume.
  destruct (hasMediaDevices b); reflexivity.
Qed.

(** On the state, the functions of the page with their bookkeeping are the
    functions of the page. *)
Lemma pageResume_state (outcome : MediaOutcome) (p : Page) :
  pageState (pageResume outcome p) = startDetectionResume outcome (pageState p).
Proof.
  destruct outcome as [rate | err]; [| reflexivity].
  unfold pageResume, pageDetectThump, startDetectionResume, detectThump.
  reflexivity.
Qed.

Lemma pageProcessAudio_state (d : Frame) (p : Page) :
  pageState (pageProcessAudio d p) = processAudio d (pageState p).
Proof.
  unfold pageProcessAudio, processAudio.
  destruct (audio (pageState p)) as [a |]; [| reflexivity].
  destruct (evaluate d _ _ _ _); reflexivity.
Qed.

Lemma pageStopListening_state (p : Page) :
  pageState (pageStopListening p) = stopListening (pageState p).
Proof. reflexivity. Qed.

(** A click followed at once by the settling of its promise is the
    uninterrupted click of [handle]. *)
Lemma click_then_settle (b : Browser) (p : Page) :
  mounted p = true -> awaitingMedia p = O ->
  pageState (pageRun [StartClicked (hasMediaDevices b);
                      MediaSettled (getUserMedia b)] p)
  = handle (ClickStart b) (pageState p).
Proof.
  intros Hm Ha. cbn [pageRun fold_left handle].
  unfold clickStart. cbn [pageHandle]. rewrite Hm. cbn [andb].
  destruct (startDisabled (pageState p)); cbn [negb].
  - rewrite Ha. reflexivity.
  - rewrite startDetection_split.
    unfold startDetectionBegin.
    destruct (hasMediaDevices b); cbn [negb awaitingMedia pageState mounted
                                        scheduledFrames].
    + rewrite pageResume_state. reflexivity.
    + rewrite Ha. reflexivity.
Qed.

Lemma stopListening_fields (st : State) :
  massKg (stopListening st) = massKg st /\
  error (stopListening st) = error st /\
  audio (stopListening st) = audio st.
Proof.
  unfold stopListening. destruct (animationFrameId st); repeat split.
Qed.

Lemma stopListening_idle_noop (st : State) :
  isListening st = false -> animationFrameId st = None -> stopListening st = st.
Proof.
  intros Hl Hid. unfold stopListening. rewrite Hid.
  destruct st. simpl in *. rewrite Hl. reflexivity.
Qed.

Lemma remove_single (x : positive) : remove Pos.eq_dec x [x] = [].
Proof. simpl. destruct (Pos.eq_dec x x); [reflexivity | contradiction]. Qed.

Lemma pageInvariant_initial : pageInvariant initialPage.
Proof.
  unfold pageInvariant. split; [| split].
  - left. repeat split.
  - intros a Ha. discriminate Ha.
  - left. reflexivity.
Qed.

(** In an active phase a mounted page listens. *)
Lemma pageInvariant_idle_quiescent (p : Page) :
  pageInvariant p -> mounted p = true -> isListening (pageState p) = false ->
  quiescent p.
Proof.
  intros ([Hq | (_ & _ & _ & _ & Hl)] & _) Hm Hidle; [exact Hq |].
  rewrite Hm in Hl. congruence.
Qed.

Lemma pageInvariant_StartClicked (hasDevices : bool) (p : Page) :
  pageInvariant p -> pageInvariant (pageHandle (StartClicked hasDevices) p).
Proof.
  intros Hinv. cbn [pageHandle].
  destruct (mounted p) eqn:Hm; cbn [andb]; [| exact Hinv].
  destruct (startDisabled (pageState p)) eqn:Hd; cbn [negb]; [exact Hinv |].
  unfold startDisabled in Hd. apply orb_false_iff in Hd. destruct Hd as [Hl Hv].
  apply negb_false_iff in Hv. apply isMassValid_iff in Hv.
  destruct (pageInvariant_idle_quiescent p Hinv Hm Hl) as (Ha & Hf & _ & Hid).
  destruct Hinv as (_ & Hfft & Hres).
  unfold startDetectionBegin. destruct hasDevices; cbn [negb].
  - unfold pageInvariant. cbn. split; [| split].
    + right. split; [left; unfold promptOpen; cbn; rewrite Ha; auto |].
      auto.
    + exact Hfft.
    + left. reflexivity.
  - unfold pageInvariant. cbn. split; [| split].
    + left. unfold quiescent. cbn. auto.
    + exact Hfft.
    + exact Hres.
Qed.

Lemma pageInvariant_MediaSettled (outcome : MediaOutcome) (p : Page) :
  pageInvariant p -> pageInvariant (pageHandle (MediaSettled outcome) p).
Proof.
  intros Hinv. cbn [pageHandle].
  destruct (awaitingMedia p) as [| n] eqn:Ha; [exact Hinv |].
  destruct Hinv as ([(Hq & _) | (Hphase & Hmass & Hempty & Herr & Hl)] & Hfft & Hres);
    [congruence |].
  destruct Hphase as [(Hone & Hf & Hid) | (Hzero & _)]; [| congruence].
  assert (n = O) by congruence. subst n.
  destruct outcome as [rate | err].
  - unfold pageInvariant, pageResume, pageDetectThump. cbn.
    split; [| split].
    + right. split; [| auto].
      right. unfold loopRunning. cbn. rewrite Hf.
      split; [reflexivity |]. split; eexists; [split |]; reflexivity.
    + intros a Hsome. injection Hsome as <-. reflexivity.
    + exact Hres.
  - unfold pageInvariant, pageResume. cbn. split; [| split].
    + left. unfold quiescent. cbn. auto.
    + exact Hfft.
    + exact Hres.
Qed.

Lemma pageInvariant_inputs (p : Page) (st : State) :
  pageInvariant p -> mounted p = true ->
  (isListening (pageState p) = true -> st = pageState p) ->
  isListening st = isListening (pageState p) ->
  animationFrameId st = animationFrameId (pageState p) ->
  audio st = audio (pageState p) ->
  result st = result (pageState p) ->
  pageInvariant (withState st p).
Proof.
  intros Hinv Hm Hsame Hl Hid Haudio Hresult.
  destruct (isListening (pageState p)) eqn:Hlp.
  - rewrite (Hsame eq_refl). destruct p. exact Hinv.
  - destruct (pageInvariant_idle_quiescent p Hinv Hm Hlp) as (Ha & Hf & _ & Hnone).
    destruct Hinv as (_ & Hfft & Hres).
    unfold pageInvariant. cbn. rewrite Haudio, Hresult.
    split; [| split; assumption].
    left. unfold quiescent. cbn. rewrite Hid. auto.
Qed.

Ltac page_fields :=
  unfold pageInvariant, quiescent, promptOpen, loopRunning,
    pageStopListening, pageRequestFrame, withState;
  cbn [pageState mounted awaitingMedia scheduledFrames].

Lemma requestAnimationFrame_fields (st : State) :
  massKg (requestAnimationFrame st) = massKg st /\
  isListening (requestAnimationFrame st) = isListening st /\
  error (requestAnimationFrame st) = error st /\
  result (requestAnimationFrame st) = result st /\
  audio (requestAnimationFrame st) = audio st /\
  animationFrameId (requestAnimationFrame st) = Some (nextFrameId st).
Proof. repeat split. Qed.

Lemma pageInvariant_FrameFired (id : positive) (d : Frame) (p : Page) :
  pageInvariant p -> pageInvariant (pageHandle (FrameFired id d) p).
Proof.
  intros Hinv. cbn [pageHandle].
  destruct (existsb (Pos.eqb id) (scheduledFrames p)) eqn:Hex; [| exact Hinv].
  destruct Hinv as ([(_ & Hf & _) | (Hphase & Hmass & Hempty & Herr & Hl)] & Hfft & Hres).
  { rewrite Hf in Hex. discriminate Hex. }
  destruct Hphase as [(_ & Hf & _) | (Hzero & (x & Hf & Hid) & a & Ha)].
  { rewrite Hf in Hex. discriminate Hex. }
  rewrite Hf in Hex. simpl in Hex. rewrite orb_false_r in Hex.
  apply Pos.eqb_eq in Hex. subst id. rewrite Hf, remove_single.
  unfold pageProcessAudio. cbn [pageState]. rewrite Ha.
  destruct (evaluate d _ _ _ _) as [f |].
  - destruct (stopListening_fields (calculateRipeness (pageState p) (Q2R f)))
      as (_ & _ & Haud).
    page_fields. rewrite Haud, stopListening_result.
    split; [| split].
    + left. rewrite stopListening_idle, stopListening_frame.
      repeat split; try assumption.
      destruct (animationFrameId (calculateRipeness (pageState p) (Q2R f)));
        reflexivity.
    + rewrite (calculateRipeness_valid_state _ _ Hmass). exact Hfft.
    + apply resultWellFormed_calculateRipeness. exact Hmass.
  - destruct (requestAnimationFrame_fields (pageState p))
      as (Em & El & Ee & Er & Ea & Ei).
    page_fields. rewrite Em, El, Ee, Er, Ea, Ei.
    split; [| split; assumption].
    right. split; [| auto].
    right. split; [exact Hzero |]. split; [eexists; split; reflexivity |].
    exists a. exact Ha.
Qed.

Lemma pageInvariant_ComponentUnmounted (p : Page) :
  pageInvariant p -> pageInvariant (pageHandle ComponentUnmounted p).
Proof.
  intros Hinv. cbn [pageHandle].
  destruct (mounted p) eqn:Hm; [| exact Hinv].
  destruct (stopListening_fields (pageState p)) as (Hmass' & Herr' & Haud').
  destruct Hinv as (Hphase & Hfft & Hres).
  page_fields.
  rewrite Haud', stopListening_result, Hmass', Herr', stopListening_idle,
    stopListening_frame.
  split; [| split; assumption].
  destruct Hphase as [(Ha & Hf & Hl & Hid)
                     | ([(Hone & Hf & Hid) | (Hzero & (x & Hf & Hid) & a & Ha)]
                        & Hmass & Hempty & Herr & Hl)].
  - left. rewrite Hid, Hf. auto.
  - right. split; [| auto].
    left. rewrite Hid, Hf. auto.
  - left. rewrite Hid, Hf. unfold cancelFrame. rewrite remove_single. auto.
Qed.

Lemma inputMass_fields (m : R) (st : State) :
  (isListening st = true -> inputMass m st = st) /\
  isListening (inputMass m st) = isListening st /\
  animationFrameId (inputMass m st) = animationFrameId st /\
  audio (inputMass m st) = audio st /\
  result (inputMass m st) = result st.
Proof.
  unfold inputMass. destruct (isListening st) eqn:E; repeat split;
    try assumption; intros H; discriminate H.
Qed.

Lemma inputSensitivity_fields (s : Q) (st : State) :
  (isListening st = true -> inputSensitivity s st = st) /\
  isListening (inputSensitivity s st) = isListening st /\
  animationFrameId (inputSensitivity s st) = animationFrameId st /\
  audio (inputSensitivity s st) = audio st /\
  result (inputSensitivity s st) = result st.
Proof.
  unfold inputSensitivity. destruct (isListening st) eqn:E; repeat split;
    try assumption; intros H; discriminate H.
Qed.

Lemma pageInvariant_pageHandle (e : PageEvent) (p : Page) :
  pageInvariant p -> pageInvariant (pageHandle e p).
Proof.
  intros Hinv. destruct e as [hasDevices | outcome | m | s | id d |].
  - apply pageInvariant_StartClicked, Hinv.
  - apply pageInvariant_MediaSettled, Hinv.
  - cbn [pageHandle]. destruct (mounted p) eqn:Hm; [| exact Hinv].
    destruct (inputMass_fields m (pageState p)) as (H1 & H2 & H3 & H4 & H5).
    apply pageInvariant_inputs; assumption.
  - cbn [pageHandle]. destruct (mounted p) eqn:Hm; [| exact Hinv].
    destruct (inputSensitivity_fields s (pageState p)) as (H1 & H2 & H3 & H4 & H5).
    apply pageInvariant_inputs; assumption.
  - apply pageInvariant_FrameFired, Hinv.
  - apply pageInvariant_ComponentUnmounted, Hinv.
Qed.

Lemma pageInvariant_pageRun (events : list PageEvent) :
  forall p, pageInvariant p -> pageInvariant (pageRun events p).
Proof.
  induction events as [| e events IH]; intros p Hinv; simpl.
  - exact Hinv.
  - apply IH, pageInvariant_pageHandle, Hinv.
Qed.

Lemma page_invariant_holds (events : list PageEvent) :
  pageInvariant (pageRun events initialPage).
Proof. apply pageInvariant_pageRun, pageInvariant_initial. Qed.

(** X15.  Whatever events reach the page after it is mounted, with the
    call of [startDetection] suspended at its [await] for as long as the
    browser takes, the page is in one of three phases.  Quiescent: nothing
    is pending, the page does not listen and [animationFrameId] is null.
    Prompt open: exactly one call is suspended, no frame callback is
    pending, and no audio graph is needed yet.  Loop running: no call is
    suspended, exactly one frame callback is pending, [animationFrameId]
    holds its handle and the audio graph exists.  In the last two phases the
    mass is positive, the result is still empty, no error is shown, and the
    page listens exactly when the component is still mounted.  Throughout,
    the analyser has 16384 points and the result is either empty or complete
    and within range. *)
Theorem page_invariant_always_holds (events : list PageEvent) :
  pageInvariant (pageRun events initialPage).
Proof. exact (page_invariant_holds events). Qed.

(** X19.  Stopping is idempotent, leaves the page not listening with
    [animationFrameId] null, and keeps the result and the mass.  In every
    state a mounted page can reach where it does not listen, stopping
    changes nothing and cancels nothing.  A stop does not cancel a start
    that is suspended at the microphone prompt: if the component is
    unmounted while the prompt is open and the microphone is then granted,
    the frame loop is started on a page that is not listening. *)
Theorem stop_is_idempotent (events : list PageEvent) (st : State) (rate : Q) :
  stopListening (stopListening st) = stopListening st /\
  isListening (stopListening st) = false /\
  animationFrameId (stopListening st) = None /\
  result (stopListening st) = result st /\
  massKg (stopListening st) = massKg st /\
  (mounted (pageRun events initialPage) = true ->
   isListening (pageState (pageRun events initialPage)) = false ->
   pageStopListening (pageRun events initialPage) = pageRun events initialPage) /\
  (awaitingMedia (pageRun events initialPage) = 1%nat ->
   let p' := pageRun [ComponentUnmounted; MediaSettled (Granted rate)]
               (pageRun events initialPage) in
   mounted p' = false /\
   isListening (pageState p') = false /\
   exists x, scheduledFrames p' = [x] /\
             animationFrameId (pageState p') = Some x).
Proof.
  split.
  { apply stopListening_idle_noop;
      [apply stopListening_idle | apply stopListening_frame]. }
  split; [apply stopListening_idle |].
  split; [apply stopListening_frame |].
  split; [apply stopListening_result |].
  split; [apply stopListening_fields |].
  assert (Hinv := page_invariant_holds events).
  set (p := pageRun events initialPage) in *.
  split.
  - intros Hm Hidle.
    destruct (pageInvariant_idle_quiescent p Hinv Hm Hidle) as (_ & _ & _ & Hid).
    unfold pageStopListening.
    rewrite (stopListening_idle_noop _ Hidle Hid), Hid.
    destruct p. reflexivity.
  - intros Hone.
    assert (Hun := pageInvariant_pageHandle ComponentUnmounted p Hinv).
    assert (Haw : awaitingMedia (pageHandle ComponentUnmounted p) = 1%nat).
    { cbn [pageHandle]. destruct (mounted p); exact Hone. }
    assert (Hmo : mounted (pageHandle ComponentUnmounted p) = false).
    { cbn [pageHandle]. destruct (mounted p) eqn:Hm; [reflexivity | exact Hm]. }
    set (q := pageHandle ComponentUnmounted p) in *.
    destruct Hun as ([(Hq & _) | (Hphase & _ & _ & _ & Hl)] & _ & _);
      [congruence |].
    destruct Hphase as [(_ & Hf & Hid) | (Hzero & _)]; [| congruence].
    cbv zeta. cbn [pageRun fold_left]. fold q.
    cbn [pageHandle]. rewrite Haw.
    unfold pageResume, pageDetectThump, pageRequestFrame, withState.
    cbn [pageState mounted awaitingMedia scheduledFrames audio setAudio].
    cbn [pageState mounted awaitingMedia scheduledFrames].
    rewrite Hf. split; [exact Hmo |].
    split; [change (isListening (pageState q) = false); rewrite Hl; exact Hmo |].
    eexists. split; reflexivity.
Qed.

Lemma stop_is_idempotent_witness :
  awaitingMedia (pageRun [StartClicked true] initialPage) = 1%nat /\
  isListening
    (pageState (pageRun [StartClicked true; ComponentUnmounted;
                         MediaSettled (Granted 48000)] initialPage)) = false /\
  exists x,
    scheduledFrames (pageRun [StartClicked true; ComponentUnmounted;
                              MediaSettled (Granted 48000)] initialPage) = [x].
Proof.
  assert (Hone : awaitingMedia (pageRun [StartClicked true] initialPage) = 1%nat).
  { cbn [pageRun fold_left pageHandle mounted initialPage pageState andb].
    unfold startDisabled.
    rewrite (isMassValid_true initialState) by (simpl; lra). reflexivity. }
  split; [exact Hone |].
  destruct (stop_is_idempotent [StartClicked true] initialState 48000)
    as (_ & _ & _ & _ & _ & _ & Hleak).
  destruct (Hleak Hone) as (_ & Hl & x & Hx & _).
  split; [exact Hl |]. exists x. exact Hx.
Defined.

End AsyncPage.
